(** * Code-size audit: a shallow embedding of [scripts/count-lines.py]

    The script walks the [src/] tree of a project, keeps the [.ts]/[.tsx]
    files that are not tests, counts their lines, assigns each a category from
    its path, sorts them by size and folds them into per-category statistics.

    Python's [int] is [Z], [str] is [string], a [list] is a [list], and the
    insertion-ordered [dict] of [build_stats] is an association list in
    insertion order.  The file system is a tree of directories and files; a
    file carries what [open]/[read] would produce for it. *)

From Stdlib Require Import Strings.String Strings.Ascii Strings.Byte.
From Stdlib Require Import Lists.List ZArith.ZArith Bool.Bool.
From Stdlib Require Import micromega.Lia.
From Stdlib Require Import Sorting.Permutation Sorting.Sorted.
Import ListNotations.

Local Open Scope string_scope.
Local Open Scope Z_scope.
Local Open Scope list_scope.

(** ** Python string operations used by the script *)

Module PyStr.

(** [pat in s] *)
Fixpoint contains (pat s : string) : bool :=
  String.prefix pat s ||
  match s with
  | EmptyString => false
  | String _ rest => contains pat rest
  end.

(** [s.endswith(suf)] *)
Fixpoint endswith (s suf : string) : bool :=
  String.eqb s suf ||
  match s with
  | EmptyString => false
  | String _ rest => endswith rest suf
  end.

(** [s.replace(old, new)] for one-character [old] and [new] *)
Fixpoint replace (old new : ascii) (s : string) : string :=
  match s with
  | EmptyString => EmptyString
  | String c rest =>
      String (if Ascii.eqb c old then new else c) (replace old new rest)
  end.

(** [c in s] for a character *)
Fixpoint has_char (c : ascii) (s : string) : bool :=
  match s with
  | EmptyString => false
  | String d rest => Ascii.eqb d c || has_char c rest
  end.

(** [any(p in s for p in pats)] *)
Definition any_in (pats : list string) (s : string) : bool :=
  existsb (fun p => contains p s) pats.

End PyStr.

(** ** Thresholds and records *)

Definition CRITICAL_THRESHOLD : Z := 500.
Definition WARNING_THRESHOLD : Z := 400.

Record FileInfo : Type := mkFileInfo {
  path : string;
  lines : Z;
  category : string
}.

(** [FileInfo.status] *)
Definition status (self : FileInfo) : string :=
  if lines self >? CRITICAL_THRESHOLD then "critical"
  else if lines self >? WARNING_THRESHOLD then "warning"
  else "good".

Record CategoryStats : Type := mkCategoryStats {
  name : string;
  total_files : Z;
  critical : Z;
  warning : Z;
  good : Z;
  total_lines : Z;
  files : list FileInfo
}.

(** [CategoryStats(name=n)]: every counter at its default *)
Definition new_stats (n : string) : CategoryStats :=
  mkCategoryStats n 0 0 0 0 0 [].

(** ** The classifier *)

Definition backslash : ascii := Ascii.ascii_of_nat 92.
Definition slash : ascii := Ascii.ascii_of_nat 47.

Definition categorize_file (rel_path : string) : string :=
  let parts := PyStr.replace backslash slash rel_path in
  if PyStr.contains "/ipc/" parts then "IPC Handlers"
  else if PyStr.contains "/store/" parts || PyStr.contains "/stores/" parts
  then "Stores"
  else if PyStr.contains "/pages/" parts then "Pages"
  else if PyStr.contains "/main/services/" parts then "Main Services"
  else if PyStr.contains "/components/" parts
          || PyStr.contains "useSmartSearchWorkflow" parts
  then "Renderer Components"
  else if PyStr.contains "/preload/" parts then "Preload"
  else if PyStr.contains "/shared/" parts then "Shared"
  else if PyStr.contains "/renderer/" parts then "Renderer Other"
  else if PyStr.contains "/main/" parts then "Main Other"
  else "Other".

(** The classifier as the specification words it: an ordered list of rules,
    each a set of path fragments with a label, and the label of the first rule
    one of whose fragments occurs in the path; "Other" when none does. *)
Module RuleList.

Definition rule : Type := (list string * string)%type.

Definition rules : list rule :=
  [ (["/ipc/"], "IPC Handlers");
    (["/store/"; "/stores/"], "Stores");
    (["/pages/"], "Pages");
    (["/main/services/"], "Main Services");
    (["/components/"; "useSmartSearchWorkflow"], "Renderer Components");
    (["/preload/"], "Preload");
    (["/shared/"], "Shared");
    (["/renderer/"], "Renderer Other");
    (["/main/"], "Main Other") ].

Definition matches (parts : string) (r : rule) : bool :=
  PyStr.any_in (fst r) parts.

Definition first_match (rs : list rule) (parts : string) : string :=
  match find (matches parts) rs with
  | Some r => snd r
  | None => "Other"
  end.

End RuleList.

(** ** Exceptions *)

Inductive os_error : Type :=
| PermissionError
| FileNotFoundError
| OtherOSError.

Inductive exn : Type :=
| OSError (e : os_error)
| UnicodeDecodeError
| SystemExit (code : Z).

Inductive result (A : Type) : Type :=
| Ok (a : A)
| Raise (e : exn).

Arguments Ok {A} a.
Arguments Raise {A} e.

Definition bind {A B : Type} (m : result A) (k : A -> result B) : result B :=
  match m with
  | Ok a => k a
  | Raise e => Raise e
  end.

Notation "x <- m ;; k" := (bind m (fun x => k))
  (at level 61, m at next level, right associativity).

(** A [for] loop whose body may raise: the state is threaded through the
    iterations and the first exception leaves the loop. *)
Fixpoint for_each {A S : Type} (body : A -> S -> result S) (l : list A) (s : S)
  : result S :=
  match l with
  | [] => Ok s
  | x :: rest => s' <- body x s ;; for_each body rest s'
  end.

(** ** Text files: [open(..., encoding="utf-8", errors=...)] *)

Module Utf8.

Inductive error_mode : Type := Strict | Ignore.

Definition between (lo hi n : N) : bool := ((lo <=? n) && (n <=? hi))%N.

Definition is_cont (n : N) : bool := between 128 191 n.

(** the second byte of a three-byte sequence: no overlong form, no surrogate *)
Definition second_of_3 (n0 n1 : N) : bool :=
  if (n0 =? 224)%N then between 160 191 n1
  else if (n0 =? 237)%N then between 128 159 n1
  else is_cont n1.

(** the second byte of a four-byte sequence: no overlong form, at most U+10FFFF *)
Definition second_of_4 (n0 n1 : N) : bool :=
  if (n0 =? 240)%N then between 144 191 n1
  else if (n0 =? 244)%N then between 128 143 n1
  else is_cont n1.

Definition low6 (n : N) : N := (n mod 64)%N.

(** What to do with a malformed sequence: [Strict] raises, [Ignore] drops the
    bytes consumed so far and goes on from the byte that broke the sequence. *)
Definition on_error (mode : error_mode) (resume : option (list N))
  : option (list N) :=
  match mode with
  | Strict => None
  | Ignore => resume
  end.

Definition emit (cp : N) (tail : option (list N)) : option (list N) :=
  option_map (cons cp) tail.

(** The code points of a byte string; [None] is [UnicodeDecodeError]. *)
Fixpoint decode (mode : error_mode) (bs : list byte) : option (list N) :=
  match bs with
  | [] => Some []
  | b0 :: r0 =>
    let n0 := Byte.to_N b0 in
    if (n0 <? 128)%N then emit n0 (decode mode r0)
    else if between 194 223 n0 then
      match r0 with
      | [] => on_error mode (Some [])
      | b1 :: r1 =>
        let n1 := Byte.to_N b1 in
        if is_cont n1
        then emit ((n0 mod 32) * 64 + low6 n1)%N (decode mode r1)
        else on_error mode (decode mode r0)
      end
    else if between 224 239 n0 then
      match r0 with
      | [] => on_error mode (Some [])
      | b1 :: r1 =>
        let n1 := Byte.to_N b1 in
        if second_of_3 n0 n1 then
          match r1 with
          | [] => on_error mode (Some [])
          | b2 :: r2 =>
            let n2 := Byte.to_N b2 in
            if is_cont n2
            then emit ((n0 mod 16) * 4096 + low6 n1 * 64 + low6 n2)%N
                      (decode mode r2)
            else on_error mode (decode mode r1)
          end
        else on_error mode (decode mode r0)
      end
    else if between 240 244 n0 then
      match r0 with
      | [] => on_error mode (Some [])
      | b1 :: r1 =>
        let n1 := Byte.to_N b1 in
        if second_of_4 n0 n1 then
          match r1 with
          | [] => on_error mode (Some [])
          | b2 :: r2 =>
            let n2 := Byte.to_N b2 in
            if is_cont n2 then
              match r2 with
              | [] => on_error mode (Some [])
              | b3 :: r3 =>
                let n3 := Byte.to_N b3 in
                if is_cont n3
                then emit ((n0 mod 8) * 262144 + low6 n1 * 4096
                           + low6 n2 * 64 + low6 n3)%N
                          (decode mode r3)
                else on_error mode (decode mode r2)
              end
            else on_error mode (decode mode r1)
          end
        else on_error mode (decode mode r0)
      end
    else on_error mode (decode mode r0)
  end.

(** Iterating a text file opened with universal newlines yields one line per
    terminator (LF, CR or CR LF) and one more for a last line without a
    terminator; [pending] says whether such a line has begun. *)
Fixpoint line_count (pending : bool) (text : list N) : Z :=
  match text with
  | [] => if pending then 1 else 0
  | c :: rest =>
    if (c =? 10)%N then 1 + line_count false rest
    else if (c =? 13)%N then
      match rest with
      | d :: rest' =>
        if (d =? 10)%N then 1 + line_count false rest'
        else 1 + line_count false rest
      | [] => 1
      end
    else line_count true rest
  end.

End Utf8.

(** ** The file system *)

(** What opening and reading a file does at the time of the scan. *)
Inductive file_state : Type :=
| Readable (data : list byte)
| Unreadable (err : os_error).

(** Directory entries keep the order in which the directory lists them. *)
#[warnings="-register-all"]
Inductive node : Type :=
| File (st : file_state)
| Dir (entries : list (string * node)).

(** [open(file_path, "r", encoding="utf-8", errors=mode)] followed by reading
    the whole text *)
Definition read_text (mode : Utf8.error_mode) (st : file_state)
  : result (list N) :=
  match st with
  | Unreadable err => Raise (OSError err)
  | Readable data =>
    match Utf8.decode mode data with
    | Some text => Ok text
    | None => Raise UnicodeDecodeError
    end
  end.

(** [count_lines]: the [try] body, then the [except (OSError, IOError)]
    clause; any other exception is left to the caller. *)
Definition count_lines (file_path : file_state) : result Z :=
  match (text <- read_text Utf8.Ignore file_path ;;
         Ok (Utf8.line_count false text)) with
  | Ok n => Ok n
  | Raise (OSError _) => Ok 0
  | Raise e => Raise e
  end.

(** ** Walking the tree *)

Definition subdirs (es : list (string * node)) : list string :=
  flat_map (fun e => match snd e with Dir _ => [fst e] | File _ => [] end) es.

Definition nondirs (es : list (string * node)) : list (string * file_state) :=
  flat_map (fun e => match snd e with File st => [(fst e, st)] | Dir _ => [] end)
           es.

(** [os.path.join(top, name)] for a directory entry [name] *)
Definition path_join (sep : ascii) (top name : string) : string :=
  (top ++ String sep name)%string.

(** One item of [os.walk]: the directory, its subdirectories, its files (each
    with what reading it gives). *)
Definition walk_item : Type :=
  (string * list string * list (string * file_state))%type.

(** [os.walk(top)], top-down, with the default [onerror=None]: a [top] that
    cannot be listed (it is not a directory) yields nothing.  The caller may
    prune the yielded [dirs] in place before the walk descends; [keep] is the
    filter it applies. *)
Fixpoint os_walk (sep : ascii) (keep : string -> bool) (top : string) (n : node)
  : list walk_item :=
  match n with
  | File _ => []
  | Dir es =>
    (top, subdirs es, nondirs es) ::
    (fix descend (l : list (string * node)) : list walk_item :=
       match l with
       | [] => []
       | (d, child) :: rest =>
         match child with
         | Dir _ =>
           if keep d
           then os_walk sep keep (path_join sep top d) child ++ descend rest
           else descend rest
         | File _ => descend rest
         end
       end) es
  end.

(** ** [scan_files] *)

Definition exclude_patterns : list string :=
  [".spec."; ".test."; "__tests__"; "__mocks__"].

Definition excluded_dirs : list string := ["node_modules"; "dist"; ".git"].

(** [d not in ("node_modules", "dist", ".git")] *)
Definition keep_dir (d : string) : bool :=
  negb (existsb (String.eqb d) excluded_dirs).

(** [list.sort(key=lambda f: f.lines, reverse=True)]: Python's sort is stable,
    also with [reverse=True]; [insert_desc] puts an element in front of the
    first one that is not larger. *)
Fixpoint insert_desc (x : FileInfo) (l : list FileInfo) : list FileInfo :=
  match l with
  | [] => [x]
  | y :: rest =>
    if lines y <=? lines x then x :: y :: rest
    else y :: insert_desc x rest
  end.

Definition sort_desc (l : list FileInfo) : list FileInfo :=
  fold_right insert_desc [] l.

(** The body of the inner loop for one file name of directory [root]. *)
Definition scan_file (sep : ascii) (root : string)
    (entry : string * file_state) (files : list FileInfo)
  : result (list FileInfo) :=
  let '(filename, st) := entry in
  if negb (PyStr.endswith filename ".ts" || PyStr.endswith filename ".tsx")
  then Ok files
  else if PyStr.any_in exclude_patterns filename then Ok files
  else
    let rel_path := path_join sep root filename in
    lines <- count_lines st ;;
    Ok (files ++ [mkFileInfo rel_path lines (categorize_file rel_path)]).

(** [scan_files(src_dir)].  Paths are kept relative to [src_dir.parent], as
    [relative_to] makes them, so the walk starts at the name of [src_dir]. *)
Definition scan_files (sep : ascii) (src_name : string) (src_dir : node)
  : result (list FileInfo) :=
  files <- for_each
             (fun (item : walk_item) files =>
                let '(root, _, filenames) := item in
                for_each (scan_file sep root) filenames files)
             (os_walk sep keep_dir src_name src_dir) [] ;;
  Ok (sort_desc files).

(** ** [build_stats] *)

Definition dict : Type := list (string * CategoryStats).

Fixpoint dict_get (k : string) (d : dict) : option CategoryStats :=
  match d with
  | [] => None
  | (k', v) :: rest => if String.eqb k k' then Some v else dict_get k rest
  end.

(** [d[k] = v]: an existing key keeps its place, a new one goes last *)
Fixpoint dict_set (k : string) (v : CategoryStats) (d : dict) : dict :=
  match d with
  | [] => [(k, v)]
  | (k', v') :: rest =>
    if String.eqb k k' then (k', v) :: rest else (k', v') :: dict_set k v rest
  end.

Definition dict_mem (k : string) (d : dict) : bool :=
  match dict_get k d with Some _ => true | None => false end.

(** The updates of one iteration on the statistics of the file's category. *)
Definition add_file (f : FileInfo) (cat : CategoryStats) : CategoryStats :=
  let cat := mkCategoryStats (name cat) (total_files cat + 1) (critical cat)
               (warning cat) (good cat) (total_lines cat + lines f)
               (files cat ++ [f]) in
  if lines f >? CRITICAL_THRESHOLD then
    mkCategoryStats (name cat) (total_files cat) (critical cat + 1)
      (warning cat) (good cat) (total_lines cat) (files cat)
  else if lines f >? WARNING_THRESHOLD then
    mkCategoryStats (name cat) (total_files cat) (critical cat)
      (warning cat + 1) (good cat) (total_lines cat) (files cat)
  else
    mkCategoryStats (name cat) (total_files cat) (critical cat)
      (warning cat) (good cat + 1) (total_lines cat) (files cat).

(** One iteration of the loop; the category's statistics are the object held
    by the dictionary, so updating them updates the entry. *)
Definition build_step (stats : dict) (f : FileInfo) : dict :=
  let stats :=
    if negb (dict_mem (category f) stats)
    then dict_set (category f) (new_stats (category f)) stats
    else stats in
  match dict_get (category f) stats with
  | Some cat => dict_set (category f) (add_file f cat) stats
  | None => stats
  end.

Definition build_stats (files : list FileInfo) : dict :=
  fold_left build_step files [].

(** ** [main], up to the report handed to the printers *)

(** [src] is what [project_root / "src"] names, [None] when nothing exists
    there; [sys.exit(1)] raises [SystemExit]. *)
Definition main (sep : ascii) (src : option node)
  : result (list FileInfo * dict) :=
  match src with
  | None => Raise (SystemExit 1)
  | Some src_dir =>
    files <- scan_files sep "src" src_dir ;;
    let stats := build_stats files in
    Ok (files, stats)
  end.

(** ** Notions used to state the properties *)

(** [dir_at n ds es]: following the directory names [ds] down from [n] leads
    to a directory whose entries are [es]. *)
Inductive dir_at : node -> list string -> list (string * node) -> Prop :=
| dir_here (es : list (string * node)) : dir_at (Dir es) [] es
| dir_below (es : list (string * node)) (d : string) (child : node)
    (ds : list string) (es' : list (string * node)) :
    In (d, child) es -> dir_at child ds es' -> dir_at (Dir es) (d :: ds) es'.

(** [file_at n ds filename st]: the tree has a file [filename], in state [st],
    in the directory reached through [ds]. *)
Definition file_at (n : node) (ds : list string) (filename : string)
    (st : file_state) : Prop :=
  exists es, dir_at n ds es /\ In (filename, File st) es.

(** The path the walk builds for the directory reached through [ds]. *)
Definition dir_path (sep : ascii) (top : string) (ds : list string) : string :=
  fold_left (path_join sep) ds top.

(** The path recorded for a file of that directory. *)
Definition rel_path_of (sep : ascii) (top : string) (ds : list string)
    (filename : string) : string :=
  path_join sep (dir_path sep top ds) filename.

(** [os.path.basename]: what follows the last separator. *)
Fixpoint basename (sep : ascii) (s : string) : string :=
  match s with
  | EmptyString => EmptyString
  | String c rest =>
    if PyStr.has_char sep rest then basename sep rest
    else if Ascii.eqb c sep then rest
    else s
  end.

(** No entry name of the tree holds the path separator. *)
Fixpoint names_ok (sep : ascii) (n : node) : bool :=
  match n with
  | File _ => true
  | Dir es =>
    (fix all (l : list (string * node)) : bool :=
       match l with
       | [] => true
       | (d, child) :: rest =>
         negb (PyStr.has_char sep d) && names_ok sep child && all rest
       end) es
  end.

(** The two filters of the inner loop of [scan_files]. *)
Definition eligible (filename : string) : bool :=
  (PyStr.endswith filename ".ts" || PyStr.endswith filename ".tsx")
  && negb (PyStr.any_in exclude_patterns filename).

(** The count [count_lines] returns, 0 standing in where it would raise. *)
Definition lines_of (st : file_state) : Z :=
  match count_lines st with
  | Ok n => n
  | Raise _ => 0
  end.

Definition record_of (sep : ascii) (root filename : string) (st : file_state)
  : FileInfo :=
  let rel_path := path_join sep root filename in
  mkFileInfo rel_path (lines_of st) (categorize_file rel_path).

(** The records one directory contributes, in listing order. *)
Definition found_in (sep : ascii) (root : string)
    (filenames : list (string * file_state)) : list FileInfo :=
  flat_map (fun e => if eligible (fst e)
                     then [record_of sep root (fst e) (snd e)] else [])
           filenames.

(** The records in the order the walk discovers them, before sorting. *)
Definition discovered (sep : ascii) (src_name : string) (src_dir : node)
  : list FileInfo :=
  flat_map (fun item : walk_item => found_in sep (fst (fst item)) (snd item))
           (os_walk sep keep_dir src_name src_dir).

(** The members of category [k] among [l], in order. *)
Definition of_category (k : string) (l : list FileInfo) : list FileInfo :=
  filter (fun f => String.eqb (category f) k) l.

Definition with_lines (k : Z) (l : list FileInfo) : list FileInfo :=
  filter (fun f => lines f =? k) l.

Definition count_status (s : string) (l : list FileInfo) : Z :=
  Z.of_nat (length (filter (fun f => String.eqb (status f) s) l)).

Definition sum_lines (l : list FileInfo) : Z :=
  fold_right (fun f acc => lines f + acc) 0 l.

Definition sum_total_files (d : dict) : Z :=
  fold_right (fun kv acc => total_files (snd kv) + acc) 0 d.

(** Every member list of the dictionary, one after the other. *)
Definition all_members (d : dict) : list FileInfo :=
  flat_map (fun kv => files (snd kv)) d.

(** [build_step] in one pass: change the entry of [k] by [g], or add
    [g (new_stats k)] last. *)
Fixpoint upsert (k : string) (g : CategoryStats -> CategoryStats) (d : dict)
  : dict :=
  match d with
  | [] => [(k, g (new_stats k))]
  | (k', v) :: rest =>
    if String.eqb k k' then (k', g v) :: rest else (k', v) :: upsert k g rest
  end.

(** What the counters of an entry must be, given its member list. *)
Definition entry_ok (kv : string * CategoryStats) : Prop :=
  let (k, v) := kv in
  name v = k /\
  Forall (fun f => category f = k) (files v) /\
  total_files v = Z.of_nat (length (files v)) /\
  total_files v = critical v + warning v + good v /\
  total_lines v = sum_lines (files v) /\
  critical v = count_status "critical" (files v) /\
  warning v = count_status "warning" (files v) /\
  good v = count_status "good" (files v).

(** The member list held for category [k], empty when [k] is not a key. *)
Definition members_of (k : string) (d : dict) : list FileInfo :=
  match dict_get k d with
  | Some v => files v
  | None => []
  end.

(** The separator-led components one after the other: what the walk appends
    to the name it started from. *)
Definition joined (sep : ascii) (comps : list string) : string :=
  fold_right (fun c acc => String sep (c ++ acc)%string) EmptyString comps.

(** A readable file of [n] empty lines. *)
Definition text_of_lines (n : nat) : file_state := Readable (repeat x0a n).

(** The tree of the specification's sample scenario, with a dependency
    directory, a nested build directory, a test directory and an unreadable
    file added. *)
Definition sample_tree : node :=
  Dir [ ("main",
         Dir [ ("services", Dir [ ("foo.ts", File (text_of_lines 520)) ]) ]);
        ("components",
         Dir [ ("Bar.tsx", File (text_of_lines 150));
               ("Bar.spec.tsx", File (text_of_lines 900)) ]);
        ("node_modules", Dir [ ("dep.ts", File (text_of_lines 3)) ]);
        ("lib",
         Dir [ ("dist",
                Dir [ ("deep", Dir [ ("out.ts", File (text_of_lines 7)) ]) ]);
               ("locked.ts", File (Unreadable PermissionError)) ]);
        ("__tests__", Dir [ ("helper.ts", File (text_of_lines 12)) ]) ].

(** The order of the sorted result: at least as many lines as what follows. *)
Definition desc (a b : FileInfo) : Prop := lines a >= lines b.

(** Empty, or beginning with the separator. *)
Definition sep_led (sep : ascii) (s : string) : Prop :=
  s = EmptyString \/ exists rest, s = String sep rest.

(** ** The rest of the script *)

(** *** [Colors] and [FileInfo.status_icon] *)

Module Colors.

Definition esc : ascii := Ascii.ascii_of_nat 27.

Definition RED : string := String esc "[91m".
Definition YELLOW : string := String esc "[93m".
Definition GREEN : string := String esc "[92m".
Definition RESET : string := String esc "[0m".

(** [enabled] is [sys.stdout.isatty()]. *)
Definition red (enabled : bool) (text : string) : string :=
  if enabled then (RED ++ text ++ RESET)%string else text.

Definition yellow (enabled : bool) (text : string) : string :=
  if enabled then (YELLOW ++ text ++ RESET)%string else text.

Definition green (enabled : bool) (text : string) : string :=
  if enabled then (GREEN ++ text ++ RESET)%string else text.

End Colors.

Definition status_icon (enabled : bool) (self : FileInfo) : string :=
  if lines self >? CRITICAL_THRESHOLD then
    if enabled then Colors.red enabled "!!" else "!!"
  else if lines self >? WARNING_THRESHOLD then
    if enabled then Colors.yellow enabled "!" else "!"
  else
    if enabled then Colors.green enabled "." else ".".

(** *** [find_project_root] *)

(** A resolved path is the list of its parts below the root; the root is the
    empty list and is its own parent. *)
Definition fs_path : Type := list string.

Definition parent (p : fs_path) : fs_path := removelast p.

(** The [while current != current.parent] loop.  The climb holds the current
    directory deepest part first, so that its parent is the tail; it ends at
    the root, which is not looked at. *)
Fixpoint climb (marker_in : fs_path -> bool) (rev_current : list string)
  : option fs_path :=
  match rev_current with
  | [] => None
  | _ :: rev_parent =>
    if marker_in (rev rev_current) then Some (rev rev_current)
    else climb marker_in rev_parent
  end.

(** [path_exists] says which paths exist; [script_dir] is
    [Path(__file__).resolve().parent]. *)
Definition find_project_root (path_exists : fs_path -> bool)
    (script_dir : fs_path) : fs_path :=
  match climb (fun current => path_exists (current ++ ["package.json"]))
              (rev script_dir) with
  | Some current => current
  | None => parent script_dir
  end.

(** *** [print_summary_table] *)

Definition summary_key (s : CategoryStats) : Z * Z * Z :=
  (critical s, warning s, total_lines s).

(** Python's order on tuples of integers *)
Definition key_leb (a b : Z * Z * Z) : bool :=
  let '(a1, a2, a3) := a in
  let '(b1, b2, b3) := b in
  (a1 <? b1) || ((a1 =? b1) && ((a2 <? b2) || ((a2 =? b2) && (a3 <=? b3)))).

(** [sorted(..., key=..., reverse=True)], stable as [list.sort] is *)
Fixpoint insert_by_key (x : CategoryStats) (l : list CategoryStats)
  : list CategoryStats :=
  match l with
  | [] => [x]
  | y :: rest =>
    if key_leb (summary_key y) (summary_key x) then x :: y :: rest
    else y :: insert_by_key x rest
  end.

Definition summary_order (stats : dict) : list CategoryStats :=
  fold_right insert_by_key [] (map snd stats).

(** One printed row of the table: label, files, critical, warning, good,
    total lines. *)
Record summary_row : Type := mkRow {
  row_label : string;
  row_files : Z;
  row_critical : Z;
  row_warning : Z;
  row_good : Z;
  row_lines : Z
}.

Definition row_of (cat : CategoryStats) : summary_row :=
  mkRow (name cat) (total_files cat) (critical cat) (warning cat) (good cat)
        (total_lines cat).

(** The rows printed for the categories, then the TOTAL row accumulated by
    the loop. *)
Definition print_summary_table (stats : dict)
  : list summary_row * summary_row :=
  let ordered := summary_order stats in
  let totals :=
    fold_left (fun t cat =>
                 mkRow "TOTAL" (row_files t + total_files cat)
                       (row_critical t + critical cat)
                       (row_warning t + warning cat)
                       (row_good t + good cat)
                       (row_lines t + total_lines cat))
              ordered (mkRow "TOTAL" 0 0 0 0 0) in
  (map row_of ordered, totals).

(** *** [print_file_list] *)

(** Truth value of an [Optional[int]] and of an [Optional[str]] *)
Definition truthy_int (o : option Z) : bool :=
  match o with
  | Some n => negb (n =? 0)
  | None => false
  end.

Definition truthy_str (o : option string) : bool :=
  match o with
  | Some s => negb (String.eqb s EmptyString)
  | None => false
  end.

(** [l[:n]] *)
Definition slice_to {A : Type} (n : Z) (l : list A) : list A :=
  if n <? 0 then firstn (Z.to_nat (Z.of_nat (length l) + n)) l
  else firstn (Z.to_nat n) l.

(** The three filters at the head of [print_file_list]; [lower] is
    [str.lower]. *)
Definition filtered_files (lower : string -> string) (fl : list FileInfo)
    (limit : option Z) (category_filter : option string)
    (critical_only : bool) : list FileInfo :=
  let filtered := fl in
  let filtered :=
    match category_filter with
    | Some c =>
      if truthy_str category_filter
      then filter (fun f => PyStr.contains (lower c) (lower (category f)))
                  filtered
      else filtered
    | None => filtered
    end in
  let filtered :=
    if critical_only
    then filter (fun f => existsb (String.eqb (status f))
                                  ["critical"; "warning"]) filtered
    else filtered in
  match limit with
  | Some n => if truthy_int limit then slice_to n filtered else filtered
  | None => filtered
  end.

(** What [print_file_list] prints, line by line. *)
Inductive listing_line : Type :=
| NoMatch
| Blank
| Title (critical_only : bool) (limit : option Z)
| Rule
| Heading (cat : string)
| Entry (f : FileInfo).

(** The loop over the filtered files: a heading whenever no category filter
    is set and the category differs from that of the last heading. *)
Fixpoint listing_loop (filter_set : bool) (prev_category : option string)
    (filtered : list FileInfo) : list listing_line :=
  match filtered with
  | [] => []
  | f :: rest =>
    let changed :=
      match prev_category with
      | Some c => negb (String.eqb (category f) c)
      | None => true
      end in
    if negb filter_set && changed then
      (match prev_category with Some _ => [Blank] | None => [] end)
      ++ [Heading (category f); Entry f]
      ++ listing_loop filter_set (Some (category f)) rest
    else Entry f :: listing_loop filter_set prev_category rest
  end.

Definition print_file_list (lower : string -> string) (fl : list FileInfo)
    (limit : option Z) (category_filter : option string)
    (critical_only : bool) : list listing_line :=
  let filtered :=
    filtered_files lower fl limit category_filter critical_only in
  match filtered with
  | [] => [NoMatch]
  | _ :: _ =>
    [Blank; Title critical_only limit; Rule]
    ++ listing_loop (truthy_str category_filter) None filtered
    ++ [Blank]
  end.

(** *** [main], from the arguments to what is printed *)

Record Args : Type := mkArgs {
  arg_top : option Z;
  arg_critical : bool;
  arg_category : option string;
  arg_json : bool;
  arg_no_summary : bool
}.

(** The calls [main] makes to the printers, in order. *)
Inductive printed : Type :=
| JsonReport (fl : list FileInfo) (stats : dict)
| Header (n_files : Z) (total : Z)
| SummaryTable (stats : dict)
| FileList (fl : list FileInfo) (limit : option Z)
    (category_filter : option string) (critical_only : bool)
| CriticalNote (n : Z)
| WarningNote (n : Z)
| HealthyNote.

(** [args.top or 30] *)
Definition top_or_30 (top : option Z) : Z :=
  match top with
  | Some n => if n =? 0 then 30 else n
  | None => 30
  end.

(** The part of [main] after [build_stats]. *)
Definition present (args : Args) (fl : list FileInfo) (stats : dict)
  : list printed :=
  if arg_json args then [JsonReport fl stats]
  else
    let total := sum_lines fl in
    let out := [Header (Z.of_nat (length fl)) total] in
    let out := if negb (arg_no_summary args)
               then out ++ [SummaryTable stats] else out in
    let out :=
      out ++
      [ if arg_critical args
        then FileList fl None (arg_category args) true
        else if truthy_str (arg_category args)
        then FileList fl (arg_top args) (arg_category args) false
        else FileList fl (Some (top_or_30 (arg_top args)))
                      (arg_category args) false ] in
    let critical_count := count_status "critical" fl in
    let warning_count := count_status "warning" fl in
    let out := if negb (critical_count =? 0)
               then out ++ [CriticalNote critical_count] else out in
    let out := if negb (warning_count =? 0)
               then out ++ [WarningNote warning_count] else out in
    if (critical_count =? 0) && (warning_count =? 0)
    then out ++ [HealthyNote] else out.

Definition main_printed (sep : ascii) (args : Args) (src : option node)
  : result (list printed) :=
  report <- main sep src ;;
  Ok (present args (fst report) (snd report)).

(** *** More notions used to state properties *)

(** The distinct elements of [l] in order of first occurrence, leaving out
    those of [seen]. *)
Fixpoint first_occurrences (seen l : list string) : list string :=
  match l with
  | [] => []
  | k :: rest =>
    if existsb (String.eqb k) seen then first_occurrences seen rest
    else k :: first_occurrences (seen ++ [k]) rest
  end.

(** Descending order of the summary keys. *)
Definition key_desc (a b : CategoryStats) : Prop :=
  key_leb (summary_key b) (summary_key a) = true.

Definition entries_of (ls : list listing_line) : list FileInfo :=
  flat_map (fun l => match l with Entry f => [f] | _ => [] end) ls.

(** Every entry stands under a heading of its own category; [cur] is the
    heading in force at the start. *)
Fixpoint under_own_heading (cur : option string) (ls : list listing_line)
  : Prop :=
  match ls with
  | [] => True
  | Heading c :: rest => under_own_heading (Some c) rest
  | Entry f :: rest => cur = Some (category f) /\ under_own_heading cur rest
  | _ :: rest => under_own_heading cur rest
  end.

(** No name occurs twice in a directory, anywhere in the tree. *)
Fixpoint unique_names (n : node) : Prop :=
  match n with
  | File _ => True
  | Dir es =>
    NoDup (map fst es) /\
    (fix all (l : list (string * node)) : Prop :=
       match l with
       | [] => True
       | (_, child) :: rest => unique_names child /\ all rest
       end) es
  end.

(** A line of ASCII bytes, none of them a line feed or a carriage return. *)
Definition plain_line (l : list byte) : Prop :=
  Forall (fun b => (Byte.to_N b < 128)%N /\ Byte.to_N b <> 10%N
                   /\ Byte.to_N b <> 13%N) l.

(** The bytes of a text file of the given lines, each ended by a line feed. *)
Definition text_file (ls : list (list byte)) : list byte :=
  flat_map (fun l => l ++ [x0a]) ls.

(** The labels [categorize_file] can return. *)
Definition category_labels : list string :=
  [ "IPC Handlers"; "Stores"; "Pages"; "Main Services"; "Renderer Components";
    "Preload"; "Shared"; "Renderer Other"; "Main Other"; "Other" ].

(** The sum over [l] of the weights [w]. *)
Definition weight_sum (w : FileInfo -> Z) (l : list FileInfo) : Z :=
  fold_right (fun f acc => w f + acc) 0 l.

(** The sum of a counter over the categories. *)
Definition sum_over (g : CategoryStats -> Z) (cats : list CategoryStats) : Z :=
  fold_right (fun cat acc => g cat + acc) 0 cats.

(** Python's order on tuples of integers, as a proposition. *)
Definition key_le (a b : Z * Z * Z) : Prop :=
  let '(a1, a2, a3) := a in
  let '(b1, b2, b3) := b in
  a1 < b1 \/ (a1 = b1 /\ (a2 < b2 \/ (a2 = b2 /\ a3 <= b3))).

(** The categories of [l] whose summary key is [k], in order. *)
Definition with_key (k : Z * Z * Z) (l : list CategoryStats)
  : list CategoryStats :=
  filter (fun cat => key_leb (summary_key cat) k && key_leb k (summary_key cat))
         l.

(** The files the scan reports, each as the directory names leading to it
    followed by its own name, in the order of discovery. *)
Fixpoint locations (n : node) : list (list string) :=
  match n with
  | File _ => []
  | Dir es =>
    map (fun e => [fst e]) (filter (fun e => eligible (fst e)) (nondirs es)) ++
    (fix below (l : list (string * node)) : list (list string) :=
       match l with
       | [] => []
       | (d, child) :: rest =>
         match child with
         | Dir _ =>
           if keep_dir d then map (cons d) (locations child) ++ below rest
           else below rest
         | File _ => below rest
         end
       end) es
  end.

(** * Properties *)

(** ** Strings *)

Module PyStrFacts.
Import PyStr.

Lemma has_char_false_cons (c a : ascii) (s : string) :
  has_char c (String a s) = false -> a <> c /\ has_char c s = false.
Proof.
  cbn. intros H. apply orb_false_iff in H. destruct H as [Ha Hs].
  split; [ now apply Ascii.eqb_neq | exact Hs ].
Qed.

(** Replacing one character by another does not change where a pattern that
    holds neither of them occurs. *)
Lemma prefix_replace (old new : ascii) (pat : string) :
  has_char old pat = false -> has_char new pat = false ->
  forall s, String.prefix pat (replace old new s) = String.prefix pat s.
Proof.
  induction pat as [|a pat IH]; intros Hold Hnew s.
  - now destruct s.
  - apply has_char_false_cons in Hold. apply has_char_false_cons in Hnew.
    destruct Hold as [Ho Hold], Hnew as [Hn Hnew].
    destruct s as [|b s]; [reflexivity|]. cbn.
    destruct (Ascii.eqb_spec b old) as [->|Hb].
    + destruct (ascii_dec a new) as [E|_]; [contradiction|].
      destruct (ascii_dec a old) as [E|_]; [contradiction|]. reflexivity.
    + destruct (ascii_dec a b); [now apply IH | reflexivity].
Qed.

Lemma contains_replace (old new : ascii) (pat : string) :
  has_char old pat = false -> has_char new pat = false ->
  forall s, contains pat (replace old new s) = contains pat s.
Proof.
  intros Hold Hnew. induction s as [|b s IH].
  - reflexivity.
  - change (replace old new (String b s))
      with (String (if Ascii.eqb b old then new else b) (replace old new s)).
    cbn [contains]. rewrite IH.
    change (String (if Ascii.eqb b old then new else b) (replace old new s))
      with (replace old new (String b s)).
    now rewrite prefix_replace.
Qed.

End PyStrFacts.

(** ** Status *)

(** C1: the status of a file is "critical" exactly above 500 lines, "warning"
    exactly above 400 and up to 500, "good" exactly up to 400; it is always one
    of the three, the three are distinct, and it depends on nothing but the
    line count. *)
Theorem status_partition (f : FileInfo) :
  WARNING_THRESHOLD = 400 /\ CRITICAL_THRESHOLD = 500 /\
  (status f = "critical" <-> lines f > CRITICAL_THRESHOLD) /\
  (status f = "warning" <->
     WARNING_THRESHOLD < lines f <= CRITICAL_THRESHOLD) /\
  (status f = "good" <-> lines f <= WARNING_THRESHOLD) /\
  (status f = "critical" \/ status f = "warning" \/ status f = "good") /\
  "critical" <> "warning" /\ "critical" <> "good" /\ "warning" <> "good" /\
  (forall p c, status f = status (mkFileInfo p (lines f) c)).
Proof.
  unfold status, CRITICAL_THRESHOLD, WARNING_THRESHOLD. cbn [lines].
  destruct (Z.gtb_spec (lines f) 500) as [Hc|Hc];
    [| destruct (Z.gtb_spec (lines f) 400) as [Hw|Hw] ];
    repeat split; intros; try discriminate; try lia; auto.
Qed.

(** ** The classifier *)

Lemma find_first {A : Type} (p : A -> bool) (pre post : list A) (x : A) :
  (forall y, In y pre -> p y = false) -> p x = true ->
  find p (pre ++ x :: post) = Some x.
Proof.
  induction pre as [|y pre IH]; intros Hpre Hx; cbn.
  - now rewrite Hx.
  - rewrite (Hpre y (or_introl eq_refl)). apply IH; auto.
    intros z Hz. apply Hpre. now right.
Qed.

Lemma find_nothing {A : Type} (p : A -> bool) (l : list A) :
  (forall y, In y l -> p y = false) -> find p l = None.
Proof.
  induction l as [|y l IH]; intros H; cbn; [reflexivity|].
  rewrite (H y (or_introl eq_refl)). apply IH. intros z Hz. apply H. now right.
Qed.

Lemma categorize_file_rules (rel_path : string) :
  categorize_file rel_path =
  RuleList.first_match RuleList.rules (PyStr.replace backslash slash rel_path).
Proof.
  unfold categorize_file, RuleList.first_match, RuleList.rules.
  set (parts := PyStr.replace backslash slash rel_path).
  cbn [find RuleList.matches PyStr.any_in existsb fst snd].
  repeat (destruct (PyStr.contains _ parts); cbn [orb]; try reflexivity).
Qed.

(** C6: on the path with backslashes turned into slashes, [categorize_file]
    is the first-match evaluation of the ordered rule list: a rule whose
    predecessors all fail and which matches gives its label, whatever later
    rules match as well, and a path no rule matches gets "Other". *)
Theorem categorize_file_first_match (rel_path : string) :
  let parts := PyStr.replace backslash slash rel_path in
  categorize_file rel_path = RuleList.first_match RuleList.rules parts /\
  (forall pre r post,
      RuleList.rules = pre ++ r :: post ->
      (forall r', In r' pre -> RuleList.matches parts r' = false) ->
      RuleList.matches parts r = true ->
      categorize_file rel_path = snd r) /\
  ((forall r, In r RuleList.rules -> RuleList.matches parts r = false) ->
   categorize_file rel_path = "Other").
Proof.
  intros parts. split; [apply categorize_file_rules|]. split.
  - intros pre r post E Hpre Hr. rewrite categorize_file_rules.
    unfold RuleList.first_match. fold parts. rewrite E.
    now rewrite (find_first _ pre post r Hpre Hr).
  - intros Hnone. rewrite categorize_file_rules.
    unfold RuleList.first_match. fold parts.
    now rewrite (find_nothing _ _ Hnone).
Qed.

(** C9: a path that holds "useSmartSearchWorkflow" and, once normalised, none
    of "/ipc/", "/store/", "/stores/", "/pages/", "/main/services/" is a
    "Renderer Components" file, with or without a "/components/" segment. *)
Theorem categorize_file_workflow_hook (rel_path : string) :
  PyStr.contains "useSmartSearchWorkflow" rel_path = true ->
  (forall frag,
      In frag ["/ipc/"; "/store/"; "/stores/"; "/pages/"; "/main/services/"] ->
      PyStr.contains frag (PyStr.replace backslash slash rel_path) = false) ->
  categorize_file rel_path = "Renderer Components".
Proof.
  intros Hhook Hearlier.
  rewrite <- (PyStrFacts.contains_replace backslash slash) in Hhook
    by reflexivity.
  unfold categorize_file.
  rewrite !Hearlier by (cbn; tauto).
  rewrite Hhook, orb_true_r. reflexivity.
Qed.

Lemma categorize_file_workflow_hook_witness :
  PyStr.contains "/components/" "src/renderer/hooks/useSmartSearchWorkflow.ts"
    = false /\
  categorize_file "src/renderer/hooks/useSmartSearchWorkflow.ts"
    = "Renderer Components".
Proof.
  split; [reflexivity|].
  apply categorize_file_workflow_hook; [reflexivity|].
  intros frag Hfrag. cbn in Hfrag.
  repeat (destruct Hfrag as [<-|Hfrag]; [reflexivity|]). contradiction.
Defined.

Lemma categorize_file_first_match_witness :
  categorize_file "src/main/ipc/store/handlers.ts" = "IPC Handlers" /\
  categorize_file "src/index.ts" = "Other".
Proof.
  split.
  - apply (proj1 (proj2 (categorize_file_first_match
                           "src/main/ipc/store/handlers.ts"))
             [] (["/ipc/"], "IPC Handlers") (tl RuleList.rules)).
    + reflexivity.
    + intros r' [].
    + reflexivity.
  - apply (proj2 (proj2 (categorize_file_first_match "src/index.ts"))).
    intros r Hr. cbn in Hr.
    repeat (destruct Hr as [<-|Hr]; [reflexivity|]). contradiction.
Defined.

(** ** Reading files *)

Lemma emit_some (cp : N) (tail : option (list N)) :
  tail <> None -> Utf8.emit cp tail <> None.
Proof. destruct tail; cbn; congruence. Qed.

(** With [errors="ignore"] decoding never raises. *)
Lemma decode_ignore_bounded (n : nat) :
  forall bs, (length bs <= n)%nat -> Utf8.decode Utf8.Ignore bs <> None.
Proof.
  induction n as [|n IH]; intros [|b0 r0] Hlen; cbn [length] in Hlen;
    try (cbn; discriminate); try lia.
  cbn [Utf8.decode].
  repeat match goal with
         | |- context [if ?c then _ else _] => destruct c
         | |- context [match ?l with [] => _ | _ :: _ => _ end] =>
             destruct l; cbn [length] in Hlen
         end;
    cbn [Utf8.on_error];
    try discriminate;
    try apply emit_some;
    apply IH; cbn [length]; lia.
Qed.

Lemma decode_ignore_total (bs : list byte) :
  exists text, Utf8.decode Utf8.Ignore bs = Some text.
Proof.
  destruct (Utf8.decode Utf8.Ignore bs) as [text|] eqn:E; [now exists text|].
  now apply (decode_ignore_bounded (length bs)) in E.
Qed.

Lemma count_lines_returns (st : file_state) :
  count_lines st = Ok (lines_of st).
Proof.
  unfold lines_of, count_lines, read_text, bind.
  destruct st as [data|err]; [|reflexivity].
  destruct (decode_ignore_total data) as [text ->]. reflexivity.
Qed.

Lemma count_lines_unreadable (err : os_error) :
  count_lines (Unreadable err) = Ok 0.
Proof. reflexivity. Qed.

(** ** The loops of [scan_files] *)

Lemma scan_file_found (sep : ascii) (root : string)
    (e : string * file_state) (files : list FileInfo) :
  scan_file sep root e files = Ok (files ++ found_in sep root [e]).
Proof.
  destruct e as [filename st]. unfold scan_file, found_in, eligible.
  cbn [flat_map fst snd].
  destruct (PyStr.endswith filename ".ts" || PyStr.endswith filename ".tsx");
    cbn [negb andb]; [|now rewrite app_nil_r].
  destruct (PyStr.any_in exclude_patterns filename); cbn [negb];
    [now rewrite app_nil_r|].
  rewrite count_lines_returns. cbn [bind]. now rewrite app_nil_r.
Qed.

Lemma found_in_cons (sep : ascii) (root : string) (e : string * file_state)
    (rest : list (string * file_state)) :
  found_in sep root (e :: rest) = found_in sep root [e] ++ found_in sep root rest.
Proof. unfold found_in. cbn [flat_map]. now rewrite app_nil_r. Qed.

Lemma inner_loop_found (sep : ascii) (root : string)
    (filenames : list (string * file_state)) :
  forall files,
    for_each (scan_file sep root) filenames files
    = Ok (files ++ found_in sep root filenames).
Proof.
  induction filenames as [|e rest IH]; intros files; cbn [for_each].
  - now rewrite app_nil_r.
  - rewrite scan_file_found. cbn [bind]. rewrite IH.
    rewrite (found_in_cons sep root e rest), app_assoc. reflexivity.
Qed.

Lemma outer_loop_found (sep : ascii) (items : list walk_item) :
  forall files,
    for_each (fun (item : walk_item) files =>
                let '(root, _, filenames) := item in
                for_each (scan_file sep root) filenames files) items files
    = Ok (files ++ flat_map (fun item : walk_item =>
                               found_in sep (fst (fst item)) (snd item)) items).
Proof.
  induction items as [|[[root dirs] filenames] rest IH]; intros files;
    cbn [for_each flat_map fst snd].
  - now rewrite app_nil_r.
  - rewrite inner_loop_found. cbn [bind]. rewrite IH, app_assoc. reflexivity.
Qed.

(** [scan_files] never raises: it returns the discovered records, sorted. *)
Lemma scan_files_returns (sep : ascii) (src_name : string) (src_dir : node) :
  scan_files sep src_name src_dir
  = Ok (sort_desc (discovered sep src_name src_dir)).
Proof.
  unfold scan_files. rewrite outer_loop_found. reflexivity.
Qed.

(** ** Trees and the walk *)

Lemma node_induction (P : node -> Prop) :
  (forall st, P (File st)) ->
  (forall es, (forall d child, In (d, child) es -> P child) -> P (Dir es)) ->
  forall n, P n.
Proof.
  intros Hfile Hdir. fix IH 1. intros [st|es]; [apply Hfile|].
  apply Hdir.
  induction es as [|[d c] es IHes]; intros d' child' Hin.
  - destruct Hin.
  - destruct Hin as [E|Hin].
    + injection E as _ <-. apply IH.
    + exact (IHes d' child' Hin).
Qed.

Lemma os_walk_dir (sep : ascii) (keep : string -> bool) (top : string)
    (es : list (string * node)) :
  os_walk sep keep top (Dir es)
  = (top, subdirs es, nondirs es) ::
    flat_map (fun e =>
                match snd e with
                | Dir _ =>
                  if keep (fst e)
                  then os_walk sep keep (path_join sep top (fst e)) (snd e)
                  else []
                | File _ => []
                end) es.
Proof.
  cbn [os_walk]. f_equal.
  induction es as [|[d [st|es']] es IH]; cbn [flat_map fst snd]; auto.
  destruct (keep d); cbn [app]; now rewrite IH.
Qed.

Lemma in_nondirs (es : list (string * node)) (filename : string)
    (st : file_state) :
  In (filename, st) (nondirs es) <-> In (filename, File st) es.
Proof.
  unfold nondirs. rewrite in_flat_map. split.
  - intros [[d [st'|es']] [Hin Hx]]; cbn in Hx; [|contradiction].
    destruct Hx as [E|[]]. now injection E as <- <-.
  - intros Hin. exists (filename, File st). split; [exact Hin|now left].
Qed.

Lemma dir_at_is_dir (n : node) (ds : list string) (es : list (string * node)) :
  dir_at n ds es -> exists es0, n = Dir es0.
Proof. intros H. destruct H; eauto. Qed.

Section Walk.
Variables (sep : ascii) (keep : string -> bool).

(** Every item of the walk is a directory of the tree reached through kept
    names only. *)
Lemma os_walk_sound (n : node) :
  forall top item,
    In item (os_walk sep keep top n) ->
    exists ds es,
      dir_at n ds es /\ forallb keep ds = true /\
      item = (dir_path sep top ds, subdirs es, nondirs es).
Proof.
  induction n as [st|es IH] using node_induction; intros top item Hin.
  - destruct Hin.
  - rewrite os_walk_dir in Hin. destruct Hin as [<-|Hin].
    + exists [], es. repeat split. constructor.
    + apply in_flat_map in Hin. destruct Hin as [[d child] [Hes Hin]].
      cbn [fst snd] in Hin. destruct child as [st|es']; [destruct Hin|].
      destruct (keep d) eqn:Hkeep; [|destruct Hin].
      destruct (IH d _ Hes _ _ Hin) as (ds & es'' & Hat & Hds & ->).
      exists (d :: ds), es''. repeat split.
      * econstructor; eauto.
      * cbn [forallb]. now rewrite Hkeep, Hds.
Qed.

(** Every directory reached through kept names only is an item of the walk. *)
Lemma os_walk_complete (n : node) (ds : list string)
    (es : list (string * node)) :
  dir_at n ds es -> forallb keep ds = true ->
  forall top,
    In (dir_path sep top ds, subdirs es, nondirs es) (os_walk sep keep top n).
Proof.
  induction 1 as [es|es d child ds es' Hin Hat IH]; intros Hkeep top.
  - rewrite os_walk_dir. now left.
  - cbn [forallb] in Hkeep. apply andb_true_iff in Hkeep.
    destruct Hkeep as [Hd Hds].
    rewrite os_walk_dir. right. apply in_flat_map.
    exists (d, child). split; [exact Hin|]. cbn [fst snd].
    destruct (dir_at_is_dir _ _ _ Hat) as [es0 ->]. rewrite Hd.
    exact (IH Hds (path_join sep top d)).
Qed.

End Walk.

Lemma discovered_sound (sep : ascii) (src_name : string) (src_dir : node)
    (f : FileInfo) :
  In f (discovered sep src_name src_dir) ->
  exists ds filename st,
    file_at src_dir ds filename st /\ forallb keep_dir ds = true /\
    eligible filename = true /\
    f = record_of sep (dir_path sep src_name ds) filename st.
Proof.
  unfold discovered. intros Hin. apply in_flat_map in Hin.
  destruct Hin as [item [Hitem Hf]].
  apply os_walk_sound in Hitem. destruct Hitem as (ds & es & Hat & Hds & ->).
  cbn [fst snd] in Hf. unfold found_in in Hf. apply in_flat_map in Hf.
  destruct Hf as [[filename st] [Hes Hf]]. cbn [fst snd] in Hf.
  destruct (eligible filename) eqn:Hel; [|destruct Hf].
  destruct Hf as [<-|[]].
  exists ds, filename, st. repeat split; auto.
  exists es. split; [exact Hat|]. now apply in_nondirs.
Qed.

Lemma discovered_complete (sep : ascii) (src_name : string) (src_dir : node)
    (ds : list string) (filename : string) (st : file_state) :
  file_at src_dir ds filename st -> forallb keep_dir ds = true ->
  eligible filename = true ->
  In (record_of sep (dir_path sep src_name ds) filename st)
     (discovered sep src_name src_dir).
Proof.
  intros [es [Hat Hes]] Hds Hel. unfold discovered. apply in_flat_map.
  exists (dir_path sep src_name ds, subdirs es, nondirs es). split.
  - now apply os_walk_complete.
  - cbn [fst snd]. unfold found_in. apply in_flat_map.
    exists (filename, st). split; [now apply in_nondirs|].
    cbn [fst snd]. rewrite Hel. now left.
Qed.

(** ** Sorting *)

Lemma insert_desc_perm (x : FileInfo) (l : list FileInfo) :
  Permutation (insert_desc x l) (x :: l).
Proof.
  induction l as [|y l IH]; cbn [insert_desc]; [reflexivity|].
  destruct (lines y <=? lines x); [reflexivity|].
  rewrite IH. apply perm_swap.
Qed.

Lemma sort_desc_perm (l : list FileInfo) : Permutation (sort_desc l) l.
Proof.
  induction l as [|x l IH]; cbn [sort_desc fold_right]; [reflexivity|].
  fold (sort_desc l). rewrite insert_desc_perm. now constructor.
Qed.

Lemma insert_desc_hd (x a : FileInfo) (l : list FileInfo) :
  desc a x -> HdRel desc a l -> HdRel desc a (insert_desc x l).
Proof.
  intros Hax Hal. destruct l as [|y l]; cbn [insert_desc].
  - now constructor.
  - destruct (lines y <=? lines x); constructor; auto.
    now inversion Hal.
Qed.

Lemma insert_desc_sorted (x : FileInfo) (l : list FileInfo) :
  Sorted desc l -> Sorted desc (insert_desc x l).
Proof.
  induction 1 as [|y l Hl IH Hy]; cbn [insert_desc].
  - repeat constructor.
  - destruct (Z.leb_spec (lines y) (lines x)) as [Hle|Hgt].
    + constructor; [now constructor|]. constructor. unfold desc. lia.
    + constructor; [exact IH|]. apply insert_desc_hd; [|exact Hy].
      unfold desc. lia.
Qed.

Lemma sort_desc_sorted (l : list FileInfo) : Sorted desc (sort_desc l).
Proof.
  induction l as [|x l IH]; cbn [sort_desc fold_right]; [constructor|].
  now apply insert_desc_sorted.
Qed.

(** Stability: among the records of one size, the order of [l] is kept. *)
Lemma insert_desc_with_lines (k : Z) (x : FileInfo) (l : list FileInfo) :
  with_lines k (insert_desc x l) = with_lines k (x :: l).
Proof.
  unfold with_lines.
  induction l as [|y l IH]; cbn [insert_desc]; [reflexivity|].
  destruct (Z.leb_spec (lines y) (lines x)) as [Hle|Hgt]; [reflexivity|].
  cbn [filter] in *. rewrite IH.
  destruct (Z.eqb_spec (lines x) k) as [Hx|Hx]; [|reflexivity].
  destruct (Z.eqb_spec (lines y) k) as [Hy|Hy]; [lia|reflexivity].
Qed.

Lemma sort_desc_stable (k : Z) (l : list FileInfo) :
  with_lines k (sort_desc l) = with_lines k l.
Proof.
  induction l as [|x l IH]; cbn [sort_desc fold_right]; [reflexivity|].
  fold (sort_desc l). rewrite insert_desc_with_lines.
  unfold with_lines in *. cbn [filter]. now rewrite IH.
Qed.

Lemma sort_desc_in (f : FileInfo) (l : list FileInfo) :
  In f (sort_desc l) <-> In f l.
Proof.
  split; apply Permutation_in;
    [apply sort_desc_perm | apply Permutation_sym, sort_desc_perm].
Qed.

(** C7: [scan_files] returns the discovered records sorted by line count,
    largest first (each record has at least as many lines as the next one);
    the result holds the same records as were discovered, and records of equal
    line count keep their discovery order, so the sequence is determined by
    the tree alone. *)
Theorem scan_files_sorted (sep : ascii) (src_name : string) (src_dir : node) :
  exists out,
    scan_files sep src_name src_dir = Ok out /\
    Sorted desc out /\
    Permutation out (discovered sep src_name src_dir) /\
    (forall k, with_lines k out
               = with_lines k (discovered sep src_name src_dir)) /\
    (forall out', scan_files sep src_name src_dir = Ok out' -> out' = out).
Proof.
  exists (sort_desc (discovered sep src_name src_dir)).
  split; [apply scan_files_returns|].
  split; [apply sort_desc_sorted|].
  split; [apply sort_desc_perm|].
  split; [intros k; apply sort_desc_stable|].
  intros out' H. rewrite scan_files_returns in H. now injection H as <-.
Qed.

(** ** Paths *)

Section Paths.
Variable sep : ascii.

Lemma has_char_app (s t : string) :
  PyStr.has_char sep (s ++ t)%string
  = PyStr.has_char sep s || PyStr.has_char sep t.
Proof.
  induction s as [|c s IH]; cbn; [reflexivity|]. now rewrite IH, orb_assoc.
Qed.

Lemma basename_join (top filename : string) :
  PyStr.has_char sep filename = false ->
  basename sep (path_join sep top filename) = filename.
Proof.
  intros Hfree. unfold path_join.
  induction top as [|c top IH]; cbn [append basename].
  - now rewrite Hfree, Ascii.eqb_refl.
  - rewrite has_char_app. cbn [PyStr.has_char].
    now rewrite Ascii.eqb_refl, orb_true_r.
Qed.

Lemma dir_path_joined (ds : list string) :
  forall top, dir_path sep top ds = (top ++ joined sep ds)%string.
Proof.
  unfold dir_path.
  induction ds as [|d ds IH]; intros top; cbn [fold_left joined fold_right].
  - clear. induction top as [|c top IH]; cbn; [reflexivity|now rewrite <- IH].
  - rewrite IH. unfold path_join. fold (joined sep ds).
    clear. induction top as [|c top IH]; cbn; [reflexivity|now rewrite IH].
Qed.

Lemma rel_path_joined (top : string) (ds : list string) (filename : string) :
  rel_path_of sep top ds filename
  = (top ++ joined sep (ds ++ [filename]))%string.
Proof.
  unfold rel_path_of.
  change (path_join sep (dir_path sep top ds) filename)
    with (dir_path sep (dir_path sep top ds) [filename]).
  unfold dir_path. rewrite <- fold_left_app. apply dir_path_joined.
Qed.

Lemma joined_sep_led (comps : list string) : sep_led sep (joined sep comps).
Proof. destruct comps; [now left|right; cbn; eauto]. Qed.

(** A separator-free component is recovered from what it is followed by. *)
Lemma component_inj (c c' x y : string) :
  PyStr.has_char sep c = false -> PyStr.has_char sep c' = false ->
  sep_led sep x -> sep_led sep y ->
  (c ++ x)%string = (c' ++ y)%string -> c = c' /\ x = y.
Proof.
  revert c'. induction c as [|a c IH]; intros [|a' c'] Hc Hc' Hx Hy E;
    cbn [append] in E.
  - now split.
  - apply PyStrFacts.has_char_false_cons in Hc'. destruct Hc' as [Ha' _].
    destruct Hx as [->|[rest ->]]; [discriminate|].
    injection E as E _. congruence.
  - apply PyStrFacts.has_char_false_cons in Hc. destruct Hc as [Ha _].
    destruct Hy as [->|[rest ->]]; [discriminate|].
    injection E as E _. congruence.
  - apply PyStrFacts.has_char_false_cons in Hc, Hc'.
    destruct Hc as [_ Hc], Hc' as [_ Hc'].
    injection E as -> E.
    destruct (IH c' Hc Hc' Hx Hy E) as [-> ->]. now split.
Qed.

Lemma joined_inj (l : list string) :
  forall l',
    Forall (fun c => PyStr.has_char sep c = false) l ->
    Forall (fun c => PyStr.has_char sep c = false) l' ->
    joined sep l = joined sep l' -> l = l'.
Proof.
  induction l as [|c l IH]; intros [|c' l'] Hl Hl' E;
    cbn [joined fold_right] in E; try discriminate; [reflexivity|].
  fold (joined sep l) in E. fold (joined sep l') in E.
  injection E as E. inversion Hl; inversion Hl'; subst.
  apply component_inj in E; auto using joined_sep_led.
  destruct E as [-> E]. f_equal. now apply IH.
Qed.

Lemma append_cancel (top s t : string) :
  (top ++ s)%string = (top ++ t)%string -> s = t.
Proof.
  induction top as [|c top IH]; cbn [append]; intros E; [exact E|].
  injection E as E. auto.
Qed.

(** Two files with the same recorded path are the same file of the tree. *)
Lemma rel_path_inj (top : string) (ds ds' : list string)
    (filename filename' : string) :
  Forall (fun c => PyStr.has_char sep c = false) (ds ++ [filename]) ->
  Forall (fun c => PyStr.has_char sep c = false) (ds' ++ [filename']) ->
  rel_path_of sep top ds filename = rel_path_of sep top ds' filename' ->
  ds = ds' /\ filename = filename'.
Proof.
  intros H H' E. rewrite !rel_path_joined in E. apply append_cancel in E.
  apply joined_inj in E; auto.
  apply app_inj_tail in E. exact E.
Qed.

Lemma names_ok_dir (es : list (string * node)) :
  names_ok sep (Dir es)
  = forallb (fun e => negb (PyStr.has_char sep (fst e)) && names_ok sep (snd e))
            es.
Proof.
  cbn [names_ok].
  induction es as [|[d child] es IH]; cbn [forallb fst snd]; [reflexivity|].
  now rewrite IH.
Qed.

Lemma names_ok_dir_at (n : node) (ds : list string)
    (es : list (string * node)) :
  dir_at n ds es -> names_ok sep n = true ->
  Forall (fun c => PyStr.has_char sep c = false) ds /\
  (forall d child, In (d, child) es -> PyStr.has_char sep d = false).
Proof.
  induction 1 as [es|es d child ds es' Hin Hat IH]; intros Hok;
    rewrite names_ok_dir, forallb_forall in Hok.
  - split; [constructor|]. intros d child Hin.
    specialize (Hok _ Hin). cbn [fst snd] in Hok.
    apply andb_true_iff in Hok. destruct Hok as [Hd _].
    now apply negb_true_iff in Hd.
  - specialize (Hok _ Hin). cbn [fst snd] in Hok.
    apply andb_true_iff in Hok. destruct Hok as [Hd Hchild].
    apply negb_true_iff in Hd. destruct (IH Hchild) as [Hds Hes].
    split; [now constructor|exact Hes].
Qed.

Lemma names_ok_file_at (n : node) (ds : list string) (filename : string)
    (st : file_state) :
  names_ok sep n = true -> file_at n ds filename st ->
  Forall (fun c => PyStr.has_char sep c = false) (ds ++ [filename]).
Proof.
  intros Hok [es [Hat Hin]].
  destruct (names_ok_dir_at _ _ _ Hat Hok) as [Hds Hes].
  apply Forall_app. split; [exact Hds|]. constructor; [|constructor].
  exact (Hes _ _ Hin).
Qed.

End Paths.

(** ** What [scan_files] keeps and what it leaves out *)

Lemma keep_dir_spec (d : string) :
  keep_dir d = true <-> ~ In d excluded_dirs.
Proof.
  unfold keep_dir. rewrite negb_true_iff. split.
  - intros H Hin. assert (existsb (String.eqb d) excluded_dirs = true) as E.
    { apply existsb_exists. exists d. split; [exact Hin|apply String.eqb_refl]. }
    congruence.
  - intros H. destruct (existsb (String.eqb d) excluded_dirs) eqn:E; auto.
    apply existsb_exists in E. destruct E as [x [Hin Hx]].
    apply String.eqb_eq in Hx. subst x. contradiction.
Qed.

Lemma keep_dirs_spec (ds : list string) :
  forallb keep_dir ds = true <-> (forall d, In d ds -> ~ In d excluded_dirs).
Proof.
  rewrite forallb_forall. split; intros H d Hd; apply keep_dir_spec; auto.
Qed.

Lemma any_in_false (pats : list string) (s : string) :
  PyStr.any_in pats s = false <->
  (forall p, In p pats -> PyStr.contains p s = false).
Proof.
  unfold PyStr.any_in. split.
  - intros H p Hp. destruct (PyStr.contains p s) eqn:E; auto.
    assert (existsb (fun p => PyStr.contains p s) pats = true) as E'.
    { apply existsb_exists. eauto. }
    congruence.
  - intros H. destruct (existsb _ pats) eqn:E; auto.
    apply existsb_exists in E. destruct E as [p [Hp Hc]].
    rewrite (H p Hp) in Hc. discriminate.
Qed.

Lemma eligible_spec (filename : string) :
  eligible filename = true <->
  (PyStr.endswith filename ".ts" = true \/ PyStr.endswith filename ".tsx" = true)
  /\ (forall p, In p exclude_patterns -> PyStr.contains p filename = false).
Proof.
  unfold eligible.
  rewrite andb_true_iff, orb_true_iff, negb_true_iff, any_in_false. tauto.
Qed.

(** The records returned are those of the files reached through kept
    directories whose names pass both filters. *)
Lemma scan_files_sound (sep : ascii) (src_name : string) (src_dir : node)
    (out : list FileInfo) (f : FileInfo) :
  scan_files sep src_name src_dir = Ok out -> In f out ->
  exists ds filename st,
    file_at src_dir ds filename st /\ forallb keep_dir ds = true /\
    eligible filename = true /\
    f = record_of sep (dir_path sep src_name ds) filename st.
Proof.
  rewrite scan_files_returns. intros E Hin. injection E as <-.
  apply (proj1 (sort_desc_in _ _)) in Hin. now apply discovered_sound.
Qed.

Lemma scan_files_complete (sep : ascii) (src_name : string) (src_dir : node)
    (ds : list string) (filename : string) (st : file_state) :
  file_at src_dir ds filename st -> forallb keep_dir ds = true ->
  eligible filename = true ->
  exists out,
    scan_files sep src_name src_dir = Ok out /\
    In (record_of sep (dir_path sep src_name ds) filename st) out.
Proof.
  intros Hat Hds Hel. eexists. split; [apply scan_files_returns|].
  apply (proj2 (sort_desc_in _ _)). now apply discovered_complete.
Qed.

(** C3: in a tree whose entry names hold no separator, every record returned
    by [scan_files] is the record of a file of the tree whose own name (the
    base name of the recorded path) ends with ".ts" or ".tsx" and holds none
    of ".spec.", ".test.", "__tests__", "__mocks__"; and no record is returned
    for a file whose name holds one of these, whatever its extension. *)
Theorem scan_files_eligible (sep : ascii) (src_name : string) (src_dir : node) :
  names_ok sep src_dir = true ->
  exists out,
    scan_files sep src_name src_dir = Ok out /\
    (forall f, In f out ->
       exists ds filename st,
         file_at src_dir ds filename st /\
         path f = rel_path_of sep src_name ds filename /\
         basename sep (path f) = filename /\
         (PyStr.endswith filename ".ts" = true
          \/ PyStr.endswith filename ".tsx" = true) /\
         (forall p, In p exclude_patterns ->
                    PyStr.contains p filename = false)) /\
    (forall ds filename st p,
       file_at src_dir ds filename st ->
       In p exclude_patterns -> PyStr.contains p filename = true ->
       forall f, In f out -> path f <> rel_path_of sep src_name ds filename).
Proof.
  intros Hok. exists (sort_desc (discovered sep src_name src_dir)).
  pose proof (scan_files_returns sep src_name src_dir) as Hscan.
  split; [exact Hscan|]. split.
  - intros f Hin.
    destruct (scan_files_sound _ _ _ _ _ Hscan Hin)
      as (ds & filename & st & Hat & _ & Hel & ->).
    apply eligible_spec in Hel. destruct Hel as [Hext Hpat].
    exists ds, filename, st. repeat split; auto.
    cbn [record_of path]. apply basename_join.
    pose proof (names_ok_file_at sep _ _ _ _ Hok Hat) as Hfree.
    apply Forall_app in Hfree. destruct Hfree as [_ Hfree].
    now inversion Hfree.
  - intros ds filename st p Hat Hp Hcontains f Hin E.
    destruct (scan_files_sound _ _ _ _ _ Hscan Hin)
      as (ds' & filename' & st' & Hat' & _ & Hel & ->).
    cbn [record_of path] in E. fold (rel_path_of sep src_name ds' filename') in E.
    apply rel_path_inj in E; eauto using names_ok_file_at.
    destruct E as [_ ->].
    apply eligible_spec in Hel. destruct Hel as [_ Hpat].
    rewrite (Hpat p Hp) in Hcontains. discriminate.
Qed.

Lemma scan_files_eligible_witness :
  names_ok slash sample_tree = true /\
  exists out,
    scan_files slash "src" sample_tree = Ok out /\
    forall f, In f out -> path f <> "src/components/Bar.spec.tsx".
Proof.
  split; [reflexivity|].
  destruct (scan_files_eligible slash "src" sample_tree eq_refl)
    as (out & Hscan & _ & Hexcl).
  exists out. split; [exact Hscan|].
  apply (Hexcl ["components"] "Bar.spec.tsx" (text_of_lines 900) ".spec.").
  - eexists. split.
    + eapply dir_below; [right; left; reflexivity|apply dir_here].
    + right; left; reflexivity.
  - left; reflexivity.
  - reflexivity.
Defined.

(** C4: in a tree whose entry names hold no separator, the walk only visits
    directories reached through names other than "node_modules", "dist" and
    ".git", every record returned by [scan_files] is that of a file in such a
    directory, and no record is returned for a file with a directory of one of
    these names anywhere on the way down to it. *)
Theorem scan_files_prunes (sep : ascii) (src_name : string) (src_dir : node) :
  names_ok sep src_dir = true ->
  (forall item,
     In item (os_walk sep keep_dir src_name src_dir) ->
     exists ds es,
       dir_at src_dir ds es /\ fst (fst item) = dir_path sep src_name ds /\
       (forall d, In d ds -> ~ In d excluded_dirs)) /\
  exists out,
    scan_files sep src_name src_dir = Ok out /\
    (forall f, In f out ->
       exists ds filename st,
         file_at src_dir ds filename st /\
         path f = rel_path_of sep src_name ds filename /\
         (forall d, In d ds -> ~ In d excluded_dirs)) /\
    (forall ds filename st d,
       file_at src_dir ds filename st ->
       In d ds -> In d excluded_dirs ->
       forall f, In f out -> path f <> rel_path_of sep src_name ds filename).
Proof.
  intros Hok. split.
  { intros item Hin. apply os_walk_sound in Hin.
    destruct Hin as (ds & es & Hat & Hds & ->).
    exists ds, es. repeat split; auto. now apply keep_dirs_spec. }
  exists (sort_desc (discovered sep src_name src_dir)).
  pose proof (scan_files_returns sep src_name src_dir) as Hscan.
  split; [exact Hscan|]. split.
  - intros f Hin.
    destruct (scan_files_sound _ _ _ _ _ Hscan Hin)
      as (ds & filename & st & Hat & Hds & _ & ->).
    exists ds, filename, st. repeat split; auto. now apply keep_dirs_spec.
  - intros ds filename st d Hat Hd Hexcl f Hin E.
    destruct (scan_files_sound _ _ _ _ _ Hscan Hin)
      as (ds' & filename' & st' & Hat' & Hds & _ & ->).
    cbn [record_of path] in E. fold (rel_path_of sep src_name ds' filename') in E.
    apply rel_path_inj in E; eauto using names_ok_file_at.
    destruct E as [-> _].
    rewrite keep_dirs_spec in Hds. exact (Hds d Hd Hexcl).
Qed.

Lemma scan_files_prunes_witness :
  names_ok slash sample_tree = true /\
  exists out,
    scan_files slash "src" sample_tree = Ok out /\
    forall f, In f out -> path f <> "src/lib/dist/deep/out.ts".
Proof.
  split; [reflexivity|].
  destruct (scan_files_prunes slash "src" sample_tree eq_refl)
    as (_ & out & Hscan & _ & Hexcl).
  exists out. split; [exact Hscan|].
  apply (Hexcl ["lib"; "dist"; "deep"] "out.ts" (text_of_lines 7) "dist").
  - eexists. split.
    + eapply dir_below; [do 3 right; left; reflexivity|].
      eapply dir_below; [left; reflexivity|].
      eapply dir_below; [left; reflexivity|apply dir_here].
    + left; reflexivity.
  - right; left; reflexivity.
  - right; left; reflexivity.
Defined.

(** C10: the exclusion fragments are looked for in the file name only and
    only the three exact directory names are pruned: a file with an eligible
    name is in the result whenever no directory above it is named
    "node_modules", "dist" or ".git".  So a directory named "__tests__" or
    "__mocks__" is walked like any other, and a ".ts" file in it whose own
    name holds no excluded fragment is in the result of the scan. *)
Theorem scan_files_enters_test_dirs :
  (forall sep src_name src_dir ds filename st,
      file_at src_dir ds filename st ->
      (forall d, In d ds -> ~ In d excluded_dirs) ->
      eligible filename = true ->
      exists out,
        scan_files sep src_name src_dir = Ok out /\
        In (record_of sep (dir_path sep src_name ds) filename st) out) /\
  Forall (fun d =>
            PyStr.any_in exclude_patterns d = true /\
            PyStr.any_in exclude_patterns "helper.ts" = false /\
            exists out,
              scan_files slash "src"
                (Dir [ (d, Dir [ ("helper.ts", File (text_of_lines 12)) ]) ])
              = Ok out /\
              In (mkFileInfo (path_join slash (path_join slash "src" d)
                                        "helper.ts") 12 "Other")
                 out)
         ["__tests__"; "__mocks__"].
Proof.
  split.
  - intros sep src_name src_dir ds filename st Hat Hds Hel.
    apply keep_dirs_spec in Hds. now apply scan_files_complete.
  - repeat constructor; eexists; (split; [vm_compute; reflexivity|now left]).
Qed.

(** ** Failures while reading *)

(** C8: [count_lines] always returns; it returns 0 when opening or reading
    the file raises an OS error, and the line count of the decoded text
    otherwise, undecodable bytes being skipped rather than treated as a
    failure.  [scan_files] always returns as well, and an eligible file that
    cannot be read is in its result with 0 lines. *)
Theorem count_lines_never_raises :
  (forall st, exists n, count_lines st = Ok n) /\
  (forall err, count_lines (Unreadable err) = Ok 0) /\
  (forall data, exists text,
      Utf8.decode Utf8.Ignore data = Some text /\
      count_lines (Readable data) = Ok (Utf8.line_count false text)) /\
  (forall sep src_name src_dir,
      exists out,
        scan_files sep src_name src_dir = Ok out /\
        forall ds filename err,
          file_at src_dir ds filename (Unreadable err) ->
          (forall d, In d ds -> ~ In d excluded_dirs) ->
          eligible filename = true ->
          In (mkFileInfo (rel_path_of sep src_name ds filename) 0
                (categorize_file (rel_path_of sep src_name ds filename)))
             out).
Proof.
  split; [intros st; eexists; apply count_lines_returns|].
  split; [apply count_lines_unreadable|]. split.
  - intros data. destruct (decode_ignore_total data) as [text E].
    exists text. split; [exact E|].
    unfold count_lines, read_text, bind. now rewrite E.
  - intros sep src_name src_dir.
    exists (sort_desc (discovered sep src_name src_dir)).
    split; [apply scan_files_returns|].
    intros ds filename err Hat Hds Hel.
    apply (proj2 (sort_desc_in _ _)).
    apply keep_dirs_spec in Hds.
    exact (discovered_complete sep src_name src_dir ds filename
             (Unreadable err) Hat Hds Hel).
Qed.

Lemma count_lines_never_raises_witness :
  exists out,
    scan_files slash "src" sample_tree = Ok out /\
    In (mkFileInfo "src/lib/locked.ts" 0 "Other") out.
Proof.
  destruct (proj2 (proj2 (proj2 count_lines_never_raises))
              slash "src" sample_tree) as (out & Hscan & Hzero).
  exists out. split; [exact Hscan|].
  apply (Hzero ["lib"] "locked.ts" PermissionError).
  - eexists. split.
    + eapply dir_below; [do 3 right; left; reflexivity|apply dir_here].
    + right; left; reflexivity.
  - intros d [<-|[]] Hin. cbn in Hin.
    repeat (destruct Hin as [Hin|Hin]; [discriminate|]). contradiction.
  - reflexivity.
Defined.

(** A file of bytes that are not UTF-8 is read without failure, and its line
    terminators are counted: its count is not 0. *)
Lemma binary_garbage_is_counted :
  Utf8.decode Utf8.Strict [xff; x0a] = None /\
  count_lines (Readable [xff; x0a]) = Ok 1 /\
  ~ count_lines (Readable [xff; x0a]) = Ok 0.
Proof. repeat split. discriminate. Qed.

(** ** The root directory *)




(** ** Statistics *)

Lemma build_step_skip (k' : string) (v : CategoryStats) (rest : dict)
    (f : FileInfo) :
  String.eqb (category f) k' = false ->
  build_step ((k', v) :: rest) f = (k', v) :: build_step rest f.
Proof.
  intros Hne. unfold build_step, dict_mem. cbn [dict_get dict_set].
  rewrite Hne.
  destruct (dict_get (category f) rest) as [v0|] eqn:Hget;
    cbn [negb dict_get dict_set]; rewrite Hne.
  - now rewrite Hget.
  - now destruct (dict_get (category f)
                    (dict_set (category f) (new_stats (category f)) rest)).
Qed.

Lemma build_step_upsert (f : FileInfo) (d : dict) :
  build_step d f = upsert (category f) (add_file f) d.
Proof.
  induction d as [|[k' v] rest IH]; cbn [upsert].
  - unfold build_step, dict_mem. cbn. now rewrite String.eqb_refl.
  - destruct (String.eqb (category f) k') eqn:Hk.
    + unfold build_step, dict_mem. cbn [dict_get]. rewrite Hk.
      cbn [negb dict_get dict_set]. now rewrite Hk.
    + rewrite build_step_skip by exact Hk. now rewrite IH.
Qed.

Lemma add_file_files (f : FileInfo) (v : CategoryStats) :
  files (add_file f v) = files v ++ [f].
Proof.
  unfold add_file.
  destruct (lines f >? CRITICAL_THRESHOLD); [reflexivity|].
  destruct (lines f >? WARNING_THRESHOLD); reflexivity.
Qed.

Lemma add_file_total_files (f : FileInfo) (v : CategoryStats) :
  total_files (add_file f v) = total_files v + 1.
Proof.
  unfold add_file.
  destruct (lines f >? CRITICAL_THRESHOLD); [reflexivity|].
  destruct (lines f >? WARNING_THRESHOLD); reflexivity.
Qed.

Lemma count_status_snoc (s : string) (l : list FileInfo) (f : FileInfo) :
  count_status s (l ++ [f])
  = count_status s l + (if String.eqb (status f) s then 1 else 0).
Proof.
  unfold count_status. rewrite filter_app, length_app. cbn [filter].
  destruct (String.eqb (status f) s); cbn [length]; lia.
Qed.

Lemma sum_lines_snoc (l : list FileInfo) (f : FileInfo) :
  sum_lines (l ++ [f]) = sum_lines l + lines f.
Proof.
  unfold sum_lines. induction l as [|x l IH]; cbn [app fold_right]; lia.
Qed.

Lemma new_stats_ok (k : string) : entry_ok (k, new_stats k).
Proof. cbn. repeat split; constructor. Qed.

Lemma add_file_ok (k : string) (v : CategoryStats) (f : FileInfo) :
  entry_ok (k, v) -> category f = k -> entry_ok (k, add_file f v).
Proof.
  intros (Hname & Hcat & Hlen & Hsum & Hlines & Hc & Hw & Hg) Hf.
  unfold entry_ok. rewrite add_file_files, add_file_total_files.
  rewrite !count_status_snoc, sum_lines_snoc, length_app.
  assert (Forall (fun f0 => category f0 = k) (files v ++ [f])) as Hcat'.
  { apply Forall_app. split; [exact Hcat|]. now repeat constructor. }
  cbn [length]. unfold add_file, status.
  destruct (lines f >? CRITICAL_THRESHOLD);
    [|destruct (lines f >? WARNING_THRESHOLD)];
    cbn [name total_files critical warning good total_lines String.eqb
         Ascii.eqb Bool.eqb andb];
    repeat split; auto; lia.
Qed.

Section Upsert.
Variables (k : string) (f : FileInfo).
Hypothesis Hk : category f = k.

Lemma upsert_ok (d : dict) :
  Forall entry_ok d -> Forall entry_ok (upsert k (add_file f) d).
Proof.
  induction d as [|[k' v] rest IH]; intros Hd; cbn [upsert].
  - constructor; [|constructor]. apply add_file_ok; [apply new_stats_ok|auto].
  - inversion Hd as [|? ? Hv Hrest].
    destruct (String.eqb_spec k k') as [E|E].
    + constructor; [|exact Hrest]. rewrite <- E in *. now apply add_file_ok.
    + constructor; auto.
Qed.

Lemma upsert_keys (d : dict) (x : string) :
  In x (map fst (upsert k (add_file f) d)) -> x = k \/ In x (map fst d).
Proof.
  induction d as [|[k' v] rest IH]; cbn [upsert].
  - cbn. intros [<-|[]]. now left.
  - destruct (String.eqb k k'); cbn [map fst In]; [tauto|].
    intros [E|Hin]; [tauto|]. destruct (IH Hin); tauto.
Qed.

Lemma upsert_nodup (d : dict) :
  NoDup (map fst d) -> NoDup (map fst (upsert k (add_file f) d)).
Proof.
  induction d as [|[k' v] rest IH]; intros Hd; cbn [upsert].
  - cbn. constructor; [intros []|constructor].
  - inversion Hd as [|? ? Hnotin Hrest].
    destruct (String.eqb_spec k k') as [E|E]; cbn [map fst].
    + now constructor.
    + constructor; [|now apply IH]. intros Hin.
      apply upsert_keys in Hin. destruct Hin as [Hin|Hin]; auto.
Qed.

Lemma upsert_members (d : dict) :
  Permutation (all_members (upsert k (add_file f) d)) (all_members d ++ [f]).
Proof.
  unfold all_members.
  induction d as [|[k' v] rest IH]; cbn [upsert flat_map snd].
  - rewrite add_file_files. reflexivity.
  - destruct (String.eqb k k'); cbn [flat_map snd].
    + rewrite add_file_files, <- !app_assoc.
      apply Permutation_app_head, Permutation_app_comm.
    + rewrite IH, app_assoc. reflexivity.
Qed.

Lemma upsert_sum (d : dict) :
  sum_total_files (upsert k (add_file f) d) = sum_total_files d + 1.
Proof.
  unfold sum_total_files.
  induction d as [|[k' v] rest IH]; cbn [upsert fold_right snd].
  - rewrite add_file_total_files. reflexivity.
  - destruct (String.eqb k k'); cbn [fold_right snd].
    + rewrite add_file_total_files. lia.
    + rewrite IH. lia.
Qed.

Lemma upsert_members_of (d : dict) (k0 : string) :
  members_of k0 (upsert k (add_file f) d)
  = members_of k0 d ++ of_category k0 [f].
Proof.
  unfold members_of, of_category. cbn [filter]. rewrite Hk.
  induction d as [|[k' v] rest IH]; cbn [upsert dict_get].
  - rewrite (String.eqb_sym k0 k).
    destruct (String.eqb k k0); [apply add_file_files|reflexivity].
  - destruct (String.eqb_spec k k') as [E|E]; cbn [dict_get].
    + rewrite <- E. rewrite (String.eqb_sym k0 k).
      destruct (String.eqb k k0); [apply add_file_files|].
      now rewrite app_nil_r.
    + destruct (String.eqb_spec k0 k') as [E0|E0]; [|exact IH].
      destruct (String.eqb_spec k k0) as [E'|E']; [congruence|].
      now rewrite app_nil_r.
Qed.

End Upsert.

Lemma dict_get_in (d : dict) (k : string) (v : CategoryStats) :
  dict_get k d = Some v -> In (k, v) d.
Proof.
  induction d as [|[k' v'] rest IH]; cbn [dict_get]; [discriminate|].
  destruct (String.eqb_spec k k') as [->|E].
  - intros H. injection H as ->. now left.
  - intros H. right. auto.
Qed.

Lemma in_dict_get (d : dict) (k : string) (v : CategoryStats) :
  NoDup (map fst d) -> In (k, v) d -> dict_get k d = Some v.
Proof.
  induction d as [|[k' v'] rest IH]; intros Hd Hin; [destruct Hin|].
  inversion Hd as [|? ? Hnotin Hrest]. cbn [dict_get].
  destruct Hin as [E|Hin].
  - injection E as -> ->. now rewrite String.eqb_refl.
  - destruct (String.eqb_spec k k') as [->|E]; [|auto].
    exfalso. apply Hnotin. change k' with (fst (k', v)). now apply in_map.
Qed.

(** What the loop of [build_stats] keeps true of the dictionary. *)
Lemma build_stats_loop (scanned : list FileInfo) :
  forall d,
    NoDup (map fst d) -> Forall entry_ok d ->
    let d' := fold_left build_step scanned d in
    NoDup (map fst d') /\ Forall entry_ok d' /\
    Permutation (all_members d') (all_members d ++ scanned) /\
    sum_total_files d' = sum_total_files d + Z.of_nat (length scanned) /\
    (forall k, members_of k d' = members_of k d ++ of_category k scanned).
Proof.
  induction scanned as [|f rest IH]; intros d Hnodup Hok; cbn [fold_left].
  - repeat split; auto.
    + now rewrite app_nil_r.
    + cbn [length]. lia.
    + intros k. unfold of_category. cbn [filter]. now rewrite app_nil_r.
  - rewrite build_step_upsert.
    destruct (IH (upsert (category f) (add_file f) d)
                 (upsert_nodup (category f) f d Hnodup)
                 (upsert_ok (category f) f eq_refl d Hok))
      as (Hn & Ho & Hp & Hs & Hm).
    repeat split; auto.
    + rewrite Hp, upsert_members, <- app_assoc. reflexivity.
    + rewrite Hs, upsert_sum. cbn [length]. lia.
    + intros k. rewrite Hm, upsert_members_of, <- app_assoc by reflexivity.
      f_equal. unfold of_category. cbn [filter app].
      now destruct (String.eqb (category f) k).
Qed.

(** C5: the dictionary built from a file list has one entry per category; the
    member lists taken together are the input list up to order; the member
    list of a category is exactly the input files of that category, so that
    each input file is in the list of its own category and in no other; the
    file counts add up to the length of the input; and in every entry the
    file count is the number of members and the sum of the three status
    counts, each of which counts the members of that status, and the line
    total is the sum of the members' line counts. *)
Theorem build_stats_partition (scanned : list FileInfo) :
  let stats := build_stats scanned in
  NoDup (map fst stats) /\
  Permutation (all_members stats) scanned /\
  (forall k cat, In (k, cat) stats -> files cat = of_category k scanned) /\
  (forall f, In f scanned ->
     exists cat,
       In (category f, cat) stats /\ In f (files cat) /\
       (forall k cat', In (k, cat') stats -> In f (files cat') ->
                       k = category f /\ cat' = cat)) /\
  sum_total_files stats = Z.of_nat (length scanned) /\
  (forall k cat, In (k, cat) stats ->
     name cat = k /\
     total_files cat = Z.of_nat (length (files cat)) /\
     total_files cat = critical cat + warning cat + good cat /\
     total_lines cat = sum_lines (files cat) /\
     critical cat = count_status "critical" (files cat) /\
     warning cat = count_status "warning" (files cat) /\
     good cat = count_status "good" (files cat)).
Proof.
  intros stats.
  destruct (build_stats_loop scanned [] (NoDup_nil _) (Forall_nil _))
    as (Hn & Ho & Hp & Hs & Hm).
  fold (build_stats scanned) in Hn, Ho, Hp, Hs, Hm. fold stats in Hn, Ho, Hp, Hs, Hm.
  cbn [all_members flat_map app sum_total_files fold_right members_of dict_get]
    in Hp, Hs, Hm.
  rewrite Forall_forall in Ho.
  assert (forall k cat, In (k, cat) stats -> files cat = of_category k scanned)
    as Hfiles.
  { intros k cat Hin. specialize (Hm k). unfold members_of in Hm.
    now rewrite (in_dict_get _ _ _ Hn Hin) in Hm. }
  assert (forall k cat f, In (k, cat) stats -> In f (files cat) ->
                          category f = k) as Hown.
  { intros k cat f Hin Hf. rewrite (Hfiles _ _ Hin) in Hf.
    unfold of_category in Hf. apply filter_In in Hf.
    now apply String.eqb_eq. }
  split; [exact Hn|]. split; [exact Hp|]. split; [exact Hfiles|].
  split; [|split; [lia|]].
  - intros f Hf.
    assert (In f (members_of (category f) stats)) as Hmem.
    { rewrite Hm. unfold of_category. apply filter_In.
      split; [exact Hf|apply String.eqb_refl]. }
    unfold members_of in Hmem.
    destruct (dict_get (category f) stats) as [cat|] eqn:Hget;
      [|destruct Hmem].
    apply dict_get_in in Hget. exists cat.
    split; [exact Hget|]. split; [exact Hmem|].
    intros k cat' Hin' Hf'.
    pose proof (Hown _ _ _ Hin' Hf') as E. split; [now symmetry|].
    rewrite <- E in Hin'.
    pose proof (in_dict_get _ _ _ Hn Hin') as E1.
    pose proof (in_dict_get _ _ _ Hn Hget) as E2. congruence.
  - intros k cat Hin.
    destruct (Ho _ Hin) as (H1 & _ & H3 & H4 & H5 & H6 & H7 & H8).
    repeat split; assumption.
Qed.

(** ** The sample scenario of the specification *)

Example sample_scenario :
  main slash
    (Some (Dir [ ("main", Dir [ ("services",
                                 Dir [ ("foo.ts", File (text_of_lines 520)) ]) ]);
                 ("components",
                  Dir [ ("Bar.tsx", File (text_of_lines 150));
                        ("Bar.spec.tsx", File (text_of_lines 900)) ]) ]))
  = (let foo := mkFileInfo "src/main/services/foo.ts" 520 "Main Services" in
     let bar := mkFileInfo "src/components/Bar.tsx" 150 "Renderer Components" in
     Ok ([foo; bar],
         [ ("Main Services",
            mkCategoryStats "Main Services" 1 1 0 0 520 [foo]);
           ("Renderer Components",
            mkCategoryStats "Renderer Components" 1 0 0 1 150 [bar]) ]))
  /\ status (mkFileInfo "src/main/services/foo.ts" 520 "Main Services")
     = "critical"
  /\ status (mkFileInfo "src/components/Bar.tsx" 150 "Renderer Components")
     = "good".
Proof. repeat split; vm_compute; reflexivity. Qed.

(** * Further properties *)

(** ** The status icon *)

(** X1: the icon is computed from the line count by its own conditionals and
    always agrees with the status: without colours it is "!!" exactly for a
    critical file, "!" exactly for a warning, "." exactly for a good one, and
    with colours it is the same mark between the colour of that status and
    the reset code. *)
Theorem status_icon_agrees (f : FileInfo) :
  (status_icon false f = "!!" <-> status f = "critical") /\
  (status_icon false f = "!" <-> status f = "warning") /\
  (status_icon false f = "." <-> status f = "good") /\
  status_icon true f
  = ((if String.eqb (status f) "critical" then Colors.RED
      else if String.eqb (status f) "warning" then Colors.YELLOW
      else Colors.GREEN)
     ++ status_icon false f ++ Colors.RESET)%string.
Proof.
  unfold status_icon, status.
  destruct (lines f >? CRITICAL_THRESHOLD);
    [|destruct (lines f >? WARNING_THRESHOLD)];
    repeat split; intros; try discriminate; reflexivity.
Qed.

(** ** The project root *)

Lemma climb_some (marker_in : fs_path -> bool) (rc : list string)
    (r : fs_path) :
  climb marker_in rc = Some r ->
  exists pre,
    rc = pre ++ rev r /\ r <> [] /\ marker_in r = true /\
    (forall pre1 pre2, pre = pre1 ++ pre2 -> pre2 <> [] ->
                       marker_in (rev (pre2 ++ rev r)) = false).
Proof.
  induction rc as [|c rc IH]; cbn [climb]; [discriminate|].
  destruct (marker_in (rev (c :: rc))) eqn:Hm.
  - intros E. assert (r = rev (c :: rc)) as -> by congruence.
    exists []. rewrite rev_involutive.
    repeat split; auto.
    + intros E0. apply (f_equal (@rev string)) in E0.
      rewrite rev_involutive in E0. discriminate.
    + intros pre1 pre2 E0. destruct pre1, pre2; try discriminate. congruence.
  - intros E. destruct (IH E) as (pre & -> & Hr & Hmark & Hskip).
    exists (c :: pre). repeat split; auto.
    intros [|c1 pre1] pre2 E' Hne; cbn [app] in E'.
    + subst pre2. exact Hm.
    + injection E' as _ E'. eauto.
Qed.

Lemma climb_none (marker_in : fs_path -> bool) (rc : list string) :
  climb marker_in rc = None ->
  forall pre suf, rc = pre ++ suf -> suf <> [] -> marker_in (rev suf) = false.
Proof.
  induction rc as [|c rc IH]; cbn [climb]; intros Hnone pre suf E Hne.
  - destruct pre, suf; try discriminate. congruence.
  - destruct (marker_in (rev (c :: rc))) eqn:Hm; [discriminate|].
    destruct pre as [|c1 pre]; cbn [app] in E.
    + subst suf. exact Hm.
    + injection E as _ E. eauto.
Qed.

Lemma longer_prefix {A : Type} (r rest r' rest' : list A) :
  r ++ rest = r' ++ rest' -> (length r < length r')%nat ->
  exists x, x <> [] /\ r' = r ++ x /\ rest = x ++ rest'.
Proof.
  intros E Hlen. apply app_eq_app in E. destruct E as [x [[-> ->]|[-> ->]]].
  - rewrite length_app in Hlen. lia.
  - exists x. repeat split; auto. intros ->. rewrite app_nil_r in Hlen. lia.
Qed.

(** X2: [find_project_root] returns the nearest directory, from the script's
    own directory upwards and short of the file-system root, that holds
    "package.json"; when there is none it returns the parent of the script's
    directory. *)
Theorem find_project_root_spec (path_exists : fs_path -> bool)
    (script_dir : fs_path) :
  let found := find_project_root path_exists script_dir in
  (exists rest,
      script_dir = found ++ rest /\ found <> [] /\
      path_exists (found ++ ["package.json"]) = true /\
      (forall r' rest',
          script_dir = r' ++ rest' -> (length found < length r')%nat ->
          path_exists (r' ++ ["package.json"]) = false))
  \/
  ((forall r' rest',
       script_dir = r' ++ rest' -> r' <> [] ->
       path_exists (r' ++ ["package.json"]) = false) /\
   found = parent script_dir).
Proof.
  intros found. subst found. unfold find_project_root.
  destruct (climb _ (rev script_dir)) as [r|] eqn:Hc.
  - left. destruct (climb_some _ _ _ Hc) as (pre & E & Hr & Hm & Hskip).
    apply (f_equal (@rev string)) in E.
    rewrite rev_involutive, rev_app_distr, rev_involutive in E.
    exists (rev pre). repeat split; auto.
    intros r' rest' E' Hlen. rewrite E in E'.
    destruct (longer_prefix _ _ _ _ E' Hlen) as (x & Hx & -> & Hrest).
    specialize (Hskip (rev rest') (rev x)).
    rewrite rev_app_distr, !rev_involutive in Hskip. apply Hskip.
    + apply (f_equal (@rev string)) in Hrest.
      now rewrite rev_involutive, rev_app_distr in Hrest.
    + intros E0. apply Hx. apply (f_equal (@rev string)) in E0.
      now rewrite rev_involutive in E0.
  - right. split; [|reflexivity].
    intros r' rest' E Hne.
    pose proof (climb_none _ _ Hc (rev rest') (rev r')) as H.
    rewrite rev_involutive in H. apply H.
    + now rewrite E, rev_app_distr.
    + intros E0. apply Hne. apply (f_equal (@rev string)) in E0.
      now rewrite rev_involutive in E0.
Qed.

(** X3: the file-system root itself is never looked at: whether or not it
    holds "package.json", when no directory from the script's own up to just
    below the root holds one, the result is the parent of the script's
    directory. *)
Theorem find_project_root_skips_root (path_exists : fs_path -> bool)
    (script_dir : fs_path) :
  (forall r' rest',
      script_dir = r' ++ rest' -> r' <> [] ->
      path_exists (r' ++ ["package.json"]) = false) ->
  find_project_root path_exists script_dir = parent script_dir.
Proof.
  intros Hnone. unfold find_project_root.
  destruct (climb _ (rev script_dir)) as [r|] eqn:Hc; [|reflexivity].
  destruct (climb_some _ _ _ Hc) as (pre & E & Hr & Hm & _).
  apply (f_equal (@rev string)) in E.
  rewrite rev_involutive, rev_app_distr, rev_involutive in E.
  cbv beta in Hm. rewrite (Hnone r (rev pre) E Hr) in Hm. discriminate.
Qed.

Lemma find_project_root_skips_root_witness :
  let path_exists := fun p : fs_path =>
    match p with
    | [x] => String.eqb x "package.json"
    | _ => false
    end in
  path_exists ["package.json"] = true /\
  find_project_root path_exists ["repo"; "scripts"] = ["repo"].
Proof.
  intros path_exists. split; [reflexivity|].
  apply (find_project_root_skips_root path_exists ["repo"; "scripts"]).
  intros r' rest' _ Hne.
  destruct r' as [|a [|b r']]; [contradiction|reflexivity|reflexivity].
Defined.

(** ** More on the classifier *)

(** X4: whatever the path, the category is one of the ten fixed labels. *)
Theorem categorize_file_closed (rel_path : string) :
  In (categorize_file rel_path) category_labels.
Proof.
  unfold categorize_file, category_labels.
  set (parts := PyStr.replace backslash slash rel_path).
  repeat (destruct (PyStr.contains _ parts); cbn [orb];
          [cbn [In]; tauto|]).
  cbn [In]. tauto.
Qed.

Lemma replace_twice (s : string) :
  PyStr.replace backslash slash (PyStr.replace slash backslash s)
  = PyStr.replace backslash slash s.
Proof.
  induction s as [|c s IH]; cbn [PyStr.replace]; [reflexivity|].
  rewrite IH. f_equal.
  destruct (Ascii.eqb_spec c slash) as [->|Hs].
  - reflexivity.
  - destruct (Ascii.eqb_spec c backslash) as [->|Hb]; reflexivity.
Qed.

Lemma replace_idem (s : string) :
  PyStr.replace backslash slash (PyStr.replace backslash slash s)
  = PyStr.replace backslash slash s.
Proof.
  induction s as [|c s IH]; cbn [PyStr.replace]; [reflexivity|].
  rewrite IH. f_equal.
  destruct (Ascii.eqb_spec c backslash) as [->|Hb]; [reflexivity|].
  now rewrite (proj2 (Ascii.eqb_neq c backslash) Hb).
Qed.

(** X5: the category does not depend on which separator spells the path:
    writing every backslash as a slash, or every slash as a backslash, leaves
    it unchanged. *)
Theorem categorize_file_separators (rel_path : string) :
  categorize_file (PyStr.replace backslash slash rel_path)
  = categorize_file rel_path /\
  categorize_file (PyStr.replace slash backslash rel_path)
  = categorize_file rel_path.
Proof.
  unfold categorize_file. now rewrite replace_idem, replace_twice.
Qed.

(** ** More on counting lines *)

Lemma decode_ascii (mode : Utf8.error_mode) (bs : list byte) :
  Forall (fun b => (Byte.to_N b < 128)%N) bs ->
  Utf8.decode mode bs = Some (map Byte.to_N bs).
Proof.
  induction 1 as [|b bs Hb Hbs IH]; [reflexivity|].
  cbn [Utf8.decode map]. apply N.ltb_lt in Hb. rewrite Hb, IH. reflexivity.
Qed.

Lemma line_count_plain (l : list byte) (rest : list N) :
  plain_line l ->
  forall pending,
    Utf8.line_count pending (map Byte.to_N l ++ rest)
    = Utf8.line_count (pending || match l with [] => false | _ => true end)
                      rest.
Proof.
  induction 1 as [|b l (_ & Hlf & Hcr) Hl IH]; intros pending.
  - now rewrite orb_false_r.
  - cbn [map app Utf8.line_count].
    rewrite (proj2 (N.eqb_neq _ _) Hlf), (proj2 (N.eqb_neq _ _) Hcr).
    rewrite IH, orb_true_r. now destruct l.
Qed.

Lemma line_count_text_file (ls : list (list byte)) (last : list byte) :
  Forall plain_line ls -> plain_line last ->
  Utf8.line_count false (map Byte.to_N (text_file ls ++ last))
  = Z.of_nat (length ls) + match last with [] => 0 | _ => 1 end.
Proof.
  intros Hls Hlast. induction Hls as [|l ls Hl Hls IH].
  - cbn [text_file flat_map app length].
    rewrite <- (app_nil_r (map Byte.to_N last)).
    rewrite (line_count_plain last [] Hlast). cbn. now destruct last.
  - unfold text_file in *. cbn [flat_map].
    rewrite <- !app_assoc, map_app, (line_count_plain l _ Hl).
    cbn [app map Utf8.line_count]. change (Byte.to_N x0a) with 10%N.
    cbn [N.eqb Pos.eqb]. rewrite IH. cbn [length]. lia.
Qed.

Lemma plain_line_ascii (l : list byte) :
  plain_line l -> Forall (fun b => (Byte.to_N b < 128)%N) l.
Proof. apply Forall_impl. tauto. Qed.

(** X6: a file of plain ASCII lines, each ended by a line feed, has as many
    lines as it has line feeds, and one more when text follows the last line
    feed. *)
Theorem count_lines_text_file (ls : list (list byte)) (last : list byte) :
  Forall plain_line ls -> plain_line last ->
  count_lines (Readable (text_file ls ++ last))
  = Ok (Z.of_nat (length ls) + match last with [] => 0 | _ => 1 end).
Proof.
  intros Hls Hlast. unfold count_lines, read_text.
  rewrite decode_ascii.
  - cbn [bind]. now rewrite line_count_text_file.
  - apply Forall_app. split; [|now apply plain_line_ascii].
    unfold text_file. apply Forall_flat_map.
    rewrite Forall_forall in Hls. apply Forall_forall. intros l Hl.
    apply Forall_app. split; [apply plain_line_ascii; auto|].
    constructor; [|constructor]. reflexivity.
Qed.

Lemma count_lines_text_file_witness :
  count_lines (Readable [x61; x0a; x62; x63; x0a; x64]) = Ok 3.
Proof.
  apply (count_lines_text_file [[x61]; [x62; x63]] [x64]).
  - repeat constructor; discriminate.
  - repeat constructor; discriminate.
Defined.

Lemma emit_length (cp : N) (tail : option (list N)) (t : list N) (n : nat) :
  (forall t', tail = Some t' -> (length t' <= n)%nat) ->
  Utf8.emit cp tail = Some t -> (length t <= S n)%nat.
Proof.
  intros H E. destruct tail as [t'|]; [|discriminate].
  cbn in E. injection E as <-. cbn [length]. specialize (H t' eq_refl). lia.
Qed.

(** Decoding never yields more code points than there are bytes. *)
Lemma decode_length_bounded (mode : Utf8.error_mode) (n : nat) :
  forall bs t,
    (length bs <= n)%nat -> Utf8.decode mode bs = Some t ->
    (length t <= length bs)%nat.
Proof.
  induction n as [|n IH]; intros [|b0 r0] t Hlen; cbn [length] in Hlen;
    try lia; try (cbn; intros [= <-]; cbn; lia).
  cbn [Utf8.decode].
  repeat match goal with
         | |- context [if ?c then _ else _] => destruct c
         | |- context [match ?l with [] => _ | _ :: _ => _ end] =>
             destruct l; cbn [length] in Hlen
         end;
    intros E;
    try (destruct mode; cbn [Utf8.on_error] in E;
         [discriminate|]);
    try (injection E as <-; cbn [length]; lia);
    cbn [length];
    try (eapply Nat.le_trans;
         [eapply emit_length; [|exact E]; intros t' E'; eapply IH;
          [|exact E']; cbn [length]; lia
         |cbn [length]; lia]);
    try (eapply Nat.le_trans; [eapply IH; [|exact E]; cbn [length]; lia
                              |cbn [length]; lia]).
Qed.

Lemma line_count_bounded (n : nat) :
  forall text pending,
    (length text <= n)%nat ->
    0 <= Utf8.line_count pending text
    <= Z.of_nat (length text) + (if pending then 1 else 0).
Proof.
  induction n as [|n IH]; intros [|c rest] pending Hlen;
    cbn [length] in Hlen; try lia; cbn [Utf8.line_count length];
    try (destruct pending; lia).
  destruct (c =? 10)%N.
  { specialize (IH rest false ltac:(lia)). destruct pending; lia. }
  destruct (c =? 13)%N.
  2:{ specialize (IH rest true ltac:(lia)). destruct pending; lia. }
  destruct rest as [|d rest']; [destruct pending; lia|].
  cbn [length] in *.
  destruct (d =? 10)%N.
  - specialize (IH rest' false ltac:(lia)). destruct pending; lia.
  - specialize (IH (d :: rest') false ltac:(cbn [length]; lia)).
    cbn [length] in IH. destruct pending; lia.
Qed.

Lemma lines_of_bounds (st : file_state) :
  0 <= lines_of st /\
  (forall data, st = Readable data ->
                lines_of st <= Z.of_nat (length data)).
Proof.
  unfold lines_of, count_lines, read_text, bind.
  destruct st as [data|err]; [|split; [lia|discriminate]].
  destruct (Utf8.decode Utf8.Ignore data) as [text|] eqn:E;
    [|split; [lia|intros ? _; lia]].
  pose proof (line_count_bounded (length text) text false (Nat.le_refl _)) as Hb.
  pose proof (decode_length_bounded _ (length data) data text
                (Nat.le_refl _) E) as Hl.
  split; [lia|]. intros data' [= <-]. lia.
Qed.

(** X7: the count is never negative and never more than the number of bytes
    of the file; in particular an empty file has 0 lines. *)
Theorem count_lines_bounds (data : list byte) :
  exists n,
    count_lines (Readable data) = Ok n /\
    0 <= n <= Z.of_nat (length data).
Proof.
  exists (lines_of (Readable data)). split; [apply count_lines_returns|].
  destruct (lines_of_bounds (Readable data)) as [H0 H1].
  split; [exact H0|]. now apply H1.
Qed.

(** ** More on the scan *)


(** ** More on the statistics *)

Lemma upsert_key_list (k : string) (g : CategoryStats -> CategoryStats)
    (d : dict) :
  map fst (upsert k g d)
  = if existsb (String.eqb k) (map fst d) then map fst d
    else map fst d ++ [k].
Proof.
  induction d as [|[k' v] rest IH]; cbn [upsert map fst existsb];
    [reflexivity|].
  destruct (String.eqb k k'); cbn [map fst orb]; [reflexivity|].
  rewrite IH. now destruct (existsb (String.eqb k) (map fst rest)).
Qed.

Lemma build_stats_key_loop (scanned : list FileInfo) :
  forall d,
    map fst (fold_left build_step scanned d)
    = map fst d ++ first_occurrences (map fst d) (map category scanned).
Proof.
  induction scanned as [|f rest IH]; intros d;
    cbn [fold_left map first_occurrences].
  - now rewrite app_nil_r.
  - rewrite IH, build_step_upsert, upsert_key_list.
    destruct (existsb (String.eqb (category f)) (map fst d)); [reflexivity|].
    now rewrite <- app_assoc.
Qed.

Lemma first_occurrences_in (l : list string) :
  forall seen k,
    In k (first_occurrences seen l) <-> In k l /\ ~ In k seen.
Proof.
  induction l as [|x l IH]; intros seen k; cbn [first_occurrences].
  - cbn. tauto.
  - destruct (existsb (String.eqb x) seen) eqn:E.
    + apply existsb_exists in E. destruct E as [y [Hy Exy]].
      apply String.eqb_eq in Exy. subst y. rewrite IH. cbn [In].
      split; [tauto|]. intros [[->|H] Hn]; tauto.
    + assert (~ In x seen) as Hx.
      { intros Hin. assert (existsb (String.eqb x) seen = true) as E'.
        { apply existsb_exists. exists x. split; auto. apply String.eqb_refl. }
        congruence. }
      cbn [In]. rewrite IH, in_app_iff. cbn [In].
      destruct (String.eqb_spec x k) as [->|Hne]; [tauto|].
      split; [tauto|]. intros [[E'|H] Hn]; [contradiction|]. tauto.
Qed.

Lemma build_stats_members (scanned : list FileInfo) (k : string)
    (cat : CategoryStats) :
  In (k, cat) (build_stats scanned) -> files cat = of_category k scanned.
Proof.
  intros Hin.
  destruct (build_stats_loop scanned [] (NoDup_nil _) (Forall_nil _))
    as (Hn & _ & _ & _ & Hm).
  fold (build_stats scanned) in Hn, Hm.
  specialize (Hm k). unfold members_of in Hm.
  now rewrite (in_dict_get _ _ _ Hn Hin) in Hm.
Qed.

(** X9: the dictionary lists the categories in the order in which they first
    occur in the file list; a label is a key exactly when some file has that
    category, and no entry is without members. *)
Theorem build_stats_keys (scanned : list FileInfo) :
  map fst (build_stats scanned)
  = first_occurrences [] (map category scanned) /\
  (forall k, In k (map fst (build_stats scanned)) <->
             exists f, In f scanned /\ category f = k) /\
  (forall k cat, In (k, cat) (build_stats scanned) -> files cat <> []).
Proof.
  assert (map fst (build_stats scanned)
          = first_occurrences [] (map category scanned)) as Hkeys.
  { unfold build_stats. now rewrite build_stats_key_loop. }
  assert (forall k, In k (map fst (build_stats scanned)) <->
                    exists f, In f scanned /\ category f = k) as Hin.
  { intros k. rewrite Hkeys, first_occurrences_in, in_map_iff. cbn.
    split; [intros [[f [E Hf]] _]; eauto|intros [f [Hf E]]; eauto]. }
  split; [exact Hkeys|]. split; [exact Hin|].
  intros k cat Hcat E.
  assert (In k (map fst (build_stats scanned))) as Hk.
  { change k with (fst (k, cat)). now apply in_map. }
  apply Hin in Hk. destruct Hk as [f [Hf Ek]].
  rewrite (build_stats_members _ _ _ Hcat) in E.
  assert (In f (of_category k scanned)) as Hmem.
  { apply filter_In. split; [exact Hf|]. now apply String.eqb_eq. }
  rewrite E in Hmem. destruct Hmem.
Qed.

Lemma desc_transitive : RelationClasses.Transitive desc.
Proof. intros a b c. unfold desc. lia. Qed.

Lemma filter_sorted_desc (p : FileInfo -> bool) (l : list FileInfo) :
  Sorted desc l -> Sorted desc (filter p l).
Proof.
  intros H. apply Sorted_StronglySorted in H; [|exact desc_transitive].
  apply StronglySorted_Sorted.
  induction H as [|x l Hl IH Hx]; cbn [filter]; [constructor|].
  destruct (p x); [|exact IH]. constructor; [exact IH|].
  rewrite Forall_forall in *. intros y Hy. apply filter_In in Hy.
  apply Hx. tauto.
Qed.

(** X10: in the report of [main], the members of every category are listed
    largest first, as the files themselves are. *)
Theorem main_members_sorted (sep : ascii) (src_dir : node) :
  exists fl stats,
    main sep (Some src_dir) = Ok (fl, stats) /\
    Sorted desc fl /\
    forall k cat, In (k, cat) stats -> Sorted desc (files cat).
Proof.
  exists (sort_desc (discovered sep "src" src_dir)).
  exists (build_stats (sort_desc (discovered sep "src" src_dir))).
  split; [cbn [main]; now rewrite scan_files_returns|].
  split; [apply sort_desc_sorted|].
  intros k cat Hin. rewrite (build_stats_members _ _ _ Hin).
  apply filter_sorted_desc, sort_desc_sorted.
Qed.

(** ** The summary table *)

Lemma key_leb_le (a b : Z * Z * Z) : key_leb a b = true <-> key_le a b.
Proof.
  destruct a as [[a1 a2] a3], b as [[b1 b2] b3]. unfold key_leb, key_le.
  rewrite !orb_true_iff, !andb_true_iff, !orb_true_iff, !andb_true_iff.
  rewrite !Z.ltb_lt, !Z.eqb_eq, Z.leb_le. tauto.
Qed.

Lemma key_leb_total (a b : Z * Z * Z) :
  key_leb a b = false -> key_le b a /\ ~ key_le a b.
Proof.
  intros H. assert (~ key_le a b) as Hn.
  { intros Hle. apply key_leb_le in Hle. congruence. }
  split; [|exact Hn].
  destruct a as [[a1 a2] a3], b as [[b1 b2] b3]. unfold key_le in *. lia.
Qed.

Lemma key_le_trans (a b c : Z * Z * Z) : key_le a b -> key_le b c -> key_le a c.
Proof.
  destruct a as [[a1 a2] a3], b as [[b1 b2] b3], c as [[c1 c2] c3].
  unfold key_le. lia.
Qed.

Lemma insert_by_key_perm (x : CategoryStats) (l : list CategoryStats) :
  Permutation (insert_by_key x l) (x :: l).
Proof.
  induction l as [|y l IH]; cbn [insert_by_key]; [reflexivity|].
  destruct (key_leb (summary_key y) (summary_key x)); [reflexivity|].
  rewrite IH. apply perm_swap.
Qed.

Lemma summary_order_perm (stats : dict) :
  Permutation (summary_order stats) (map snd stats).
Proof.
  unfold summary_order.
  induction (map snd stats) as [|x l IH]; cbn [fold_right]; [reflexivity|].
  rewrite insert_by_key_perm. now constructor.
Qed.

Lemma insert_by_key_sorted (x : CategoryStats) (l : list CategoryStats) :
  Sorted key_desc l -> Sorted key_desc (insert_by_key x l).
Proof.
  induction 1 as [|y l Hl IH Hy]; cbn [insert_by_key].
  - repeat constructor.
  - destruct (key_leb (summary_key y) (summary_key x)) eqn:E.
    + constructor; [now constructor|]. constructor. exact E.
    + apply key_leb_total in E. destruct E as [E _].
      constructor; [exact IH|].
      destruct l as [|z l]; cbn [insert_by_key].
      * constructor. unfold key_desc. now apply key_leb_le.
      * destruct (key_leb (summary_key z) (summary_key x));
          constructor; [unfold key_desc; now apply key_leb_le|].
        now inversion Hy.
Qed.

Lemma insert_by_key_with_key (k : Z * Z * Z) (x : CategoryStats)
    (l : list CategoryStats) :
  with_key k (insert_by_key x l) = with_key k (x :: l).
Proof.
  unfold with_key.
  induction l as [|y l IH]; cbn [insert_by_key]; [reflexivity|].
  destruct (key_leb (summary_key y) (summary_key x)) eqn:E; [reflexivity|].
  cbn [filter] in *. rewrite IH.
  destruct (key_leb (summary_key x) k && key_leb k (summary_key x)) eqn:Ex;
    [|reflexivity].
  destruct (key_leb (summary_key y) k && key_leb k (summary_key y)) eqn:Ey;
    [|reflexivity].
  apply andb_true_iff in Ex, Ey. destruct Ex as [_ Ex], Ey as [Ey _].
  apply key_leb_le in Ex, Ey. apply key_leb_total in E. destruct E as [_ E].
  exfalso. apply E. eapply key_le_trans; eauto.
Qed.

(** X11: the rows of the summary table are the categories of the dictionary,
    each once, ordered by (critical, warning, total lines) from the largest
    key down, categories of equal key staying in dictionary order. *)
Theorem summary_table_order (stats : dict) :
  fst (print_summary_table stats) = map row_of (summary_order stats) /\
  Permutation (summary_order stats) (map snd stats) /\
  Sorted key_desc (summary_order stats) /\
  (forall k, with_key k (summary_order stats) = with_key k (map snd stats)).
Proof.
  split; [reflexivity|]. split; [apply summary_order_perm|]. split.
  - unfold summary_order.
    induction (map snd stats) as [|x l IH]; cbn [fold_right]; [constructor|].
    now apply insert_by_key_sorted.
  - intros k. unfold summary_order.
    induction (map snd stats) as [|x l IH]; cbn [fold_right]; [reflexivity|].
    rewrite insert_by_key_with_key. unfold with_key in *. cbn [filter].
    now rewrite IH.
Qed.

Lemma weight_sum_app (w : FileInfo -> Z) (l l' : list FileInfo) :
  weight_sum w (l ++ l') = weight_sum w l + weight_sum w l'.
Proof.
  unfold weight_sum. induction l as [|x l IH]; cbn [app fold_right]; lia.
Qed.

Lemma weight_sum_perm (w : FileInfo -> Z) (l l' : list FileInfo) :
  Permutation l l' -> weight_sum w l = weight_sum w l'.
Proof.
  unfold weight_sum. induction 1; cbn [fold_right]; lia.
Qed.

Lemma sum_over_perm (g : CategoryStats -> Z) (l l' : list CategoryStats) :
  Permutation l l' -> sum_over g l = sum_over g l'.
Proof.
  unfold sum_over. induction 1; cbn [fold_right]; lia.
Qed.

Lemma count_status_weight (s : string) (l : list FileInfo) :
  count_status s l
  = weight_sum (fun f => if String.eqb (status f) s then 1 else 0) l.
Proof.
  unfold count_status, weight_sum.
  induction l as [|x l IH]; cbn [filter fold_right length]; [reflexivity|].
  destruct (String.eqb (status x) s); cbn [length]; lia.
Qed.

Lemma length_weight (l : list FileInfo) :
  Z.of_nat (length l) = weight_sum (fun _ => 1) l.
Proof.
  unfold weight_sum. induction l as [|x l IH]; cbn [fold_right length]; lia.
Qed.

(** A counter that is the weight of the members in every entry sums, over the
    categories, to the weight of all members. *)
Lemma sum_over_members (g : CategoryStats -> Z) (w : FileInfo -> Z)
    (d : dict) :
  Forall (fun kv => g (snd kv) = weight_sum w (files (snd kv))) d ->
  sum_over g (map snd d) = weight_sum w (all_members d).
Proof.
  unfold sum_over, all_members.
  induction 1 as [|kv d Hkv Hd IH]; cbn [map fold_right flat_map];
    [reflexivity|].
  rewrite weight_sum_app, IH, Hkv. reflexivity.
Qed.

Lemma totals_loop (l : list CategoryStats) :
  forall t,
    fold_left (fun t cat =>
                 mkRow "TOTAL" (row_files t + total_files cat)
                       (row_critical t + critical cat)
                       (row_warning t + warning cat)
                       (row_good t + good cat)
                       (row_lines t + total_lines cat)) l t
    = match l with
      | [] => t
      | _ => mkRow "TOTAL" (row_files t + sum_over total_files l)
                   (row_critical t + sum_over critical l)
                   (row_warning t + sum_over warning l)
                   (row_good t + sum_over good l)
                   (row_lines t + sum_over total_lines l)
      end.
Proof.
  induction l as [|x l IH]; intros t; cbn [fold_left]; [reflexivity|].
  rewrite IH. unfold sum_over. cbn [fold_right].
  destruct l as [|y l]; cbn [fold_right row_files row_critical row_warning
                             row_good row_lines]; f_equal; lia.
Qed.

(** X12: the TOTAL row of the summary table of [build_stats fl] holds the
    number of files of [fl], the numbers of its critical, warning and good
    files, and the sum of its line counts: the totals agree with the header
    and with the notes [main] prints from the file list itself. *)
Theorem summary_table_totals (fl : list FileInfo) :
  snd (print_summary_table (build_stats fl))
  = mkRow "TOTAL" (Z.of_nat (length fl)) (count_status "critical" fl)
          (count_status "warning" fl) (count_status "good" fl) (sum_lines fl).
Proof.
  destruct (build_stats_loop fl [] (NoDup_nil _) (Forall_nil _))
    as (_ & Hok & Hperm & _ & _).
  fold (build_stats fl) in Hok, Hperm. cbn [all_members flat_map app] in Hperm.
  set (stats := build_stats fl) in *.
  assert (forall g w,
             Forall (fun kv => g (snd kv) = weight_sum w (files (snd kv)))
                    stats ->
             sum_over g (summary_order stats) = weight_sum w fl) as Hsum.
  { intros g w H.
    rewrite (sum_over_perm g _ _ (summary_order_perm stats)).
    rewrite (sum_over_members g w stats H). now apply weight_sum_perm. }
  assert (sum_over total_files (summary_order stats) = Z.of_nat (length fl))
    as H1.
  { rewrite length_weight. apply Hsum. eapply Forall_impl; [|exact Hok].
    intros [k v] (_ & _ & H & _). cbn [snd]. now rewrite H, length_weight. }
  assert (forall s (g : CategoryStats -> Z),
             Forall (fun kv => entry_ok kv ->
                               g (snd kv) = count_status s (files (snd kv)))
                    stats ->
             sum_over g (summary_order stats) = count_status s fl) as Hcount.
  { intros s g H. rewrite count_status_weight. apply Hsum.
    rewrite Forall_forall in *. intros kv Hkv.
    rewrite <- count_status_weight. apply H; auto. }
  assert (sum_over critical (summary_order stats) = count_status "critical" fl)
    as H2.
  { apply Hcount, Forall_forall. intros [k v] _ H. cbn [snd]. apply H. }
  assert (sum_over warning (summary_order stats) = count_status "warning" fl)
    as H3.
  { apply Hcount, Forall_forall. intros [k v] _ H. cbn [snd]. apply H. }
  assert (sum_over good (summary_order stats) = count_status "good" fl) as H4.
  { apply Hcount, Forall_forall. intros [k v] _ H. cbn [snd]. apply H. }
  assert (sum_over total_lines (summary_order stats) = sum_lines fl) as H5.
  { apply (Hsum total_lines lines). eapply Forall_impl; [|exact Hok].
    intros [k v] H. cbn [snd]. apply H. }
  unfold print_summary_table. cbn [snd]. rewrite totals_loop.
  destruct (summary_order stats) as [|c l] eqn:E.
  - unfold sum_over in *. cbn [fold_right] in *.
    now rewrite <- H1, <- H2, <- H3, <- H4, <- H5.
  - cbn [row_files row_critical row_warning row_good row_lines].
    now rewrite H1, H2, H3, H4, H5.
Qed.

(** ** The file list *)

Lemma in_slice_to {A : Type} (n : Z) (l : list A) (x : A) :
  In x (slice_to n l) -> In x l.
Proof.
  assert (forall k, In x (firstn k l) -> In x l) as Hfirst.
  { intros k H. rewrite <- (firstn_skipn k l). apply in_or_app. now left. }
  unfold slice_to. destruct (n <? 0); apply Hfirst.
Qed.

Lemma firstn_sorted_desc (l : list FileInfo) :
  Sorted desc l -> forall n, Sorted desc (firstn n l).
Proof.
  induction 1 as [|x l Hl IH Hx]; intros [|n]; cbn [firstn];
    try constructor; auto.
  destruct Hx as [|y l' Hxy]; destruct n; cbn [firstn]; constructor; auto.
Qed.

(** X13: every file that gets past the filters of [print_file_list] is one of
    the files given, is critical or warning when only those are asked for,
    and has the (lower-cased) category filter inside its lower-cased category
    when one is given; an empty filter string is no filter, and a limit of 0
    is no limit. *)
Theorem filtered_files_sound (lower : string -> string) (fl : list FileInfo)
    (limit : option Z) (category_filter : option string)
    (critical_only : bool) :
  (forall f,
      In f (filtered_files lower fl limit category_filter critical_only) ->
      In f fl /\
      (critical_only = true ->
       status f = "critical" \/ status f = "warning") /\
      (forall c, category_filter = Some c -> c <> EmptyString ->
                 PyStr.contains (lower c) (lower (category f)) = true)) /\
  filtered_files lower fl limit (Some EmptyString) critical_only
  = filtered_files lower fl limit None critical_only /\
  filtered_files lower fl (Some 0) category_filter critical_only
  = filtered_files lower fl None category_filter critical_only.
Proof.
  split; [|split; reflexivity].
  intros f Hin. unfold filtered_files in Hin.
  assert (In f (if critical_only
                then filter (fun f => existsb (String.eqb (status f))
                                              ["critical"; "warning"])
                       match category_filter with
                       | Some c =>
                         if truthy_str category_filter
                         then filter (fun f => PyStr.contains (lower c)
                                                 (lower (category f))) fl
                         else fl
                       | None => fl
                       end
                else match category_filter with
                     | Some c =>
                       if truthy_str category_filter
                       then filter (fun f => PyStr.contains (lower c)
                                               (lower (category f))) fl
                       else fl
                     | None => fl
                     end)) as Hin'.
  { destruct limit as [n|]; [|exact Hin].
    destruct (truthy_int (Some n)); [|exact Hin].
    now apply in_slice_to in Hin. }
  clear Hin.
  assert (In f match category_filter with
               | Some c =>
                 if truthy_str category_filter
                 then filter (fun f => PyStr.contains (lower c)
                                         (lower (category f))) fl
                 else fl
               | None => fl
               end /\
          (critical_only = true ->
           status f = "critical" \/ status f = "warning")) as [Hin Hcrit].
  { destruct critical_only; [|split; [exact Hin'|discriminate]].
    apply filter_In in Hin'. destruct Hin' as [Hin Hst].
    split; [exact Hin|]. intros _. cbn [existsb] in Hst.
    rewrite orb_false_r in Hst. apply orb_true_iff in Hst.
    destruct Hst as [E|E]; apply String.eqb_eq in E; auto. }
  split; [|split; [exact Hcrit|]].
  - destruct category_filter as [c|]; [|exact Hin].
    destruct (truthy_str (Some c)); [|exact Hin].
    apply filter_In in Hin. tauto.
  - intros c -> Hc. cbn [truthy_str] in Hin.
    rewrite (proj2 (String.eqb_neq c EmptyString) Hc) in Hin. cbn [negb] in Hin.
    apply filter_In in Hin. tauto.
Qed.

(** X14: the filters keep the order of the files: a file list sorted largest
    first is still sorted largest first after them. *)
Theorem filtered_files_sorted (lower : string -> string) (fl : list FileInfo)
    (limit : option Z) (category_filter : option string)
    (critical_only : bool) :
  Sorted desc fl ->
  Sorted desc (filtered_files lower fl limit category_filter critical_only).
Proof.
  intros Hfl. unfold filtered_files.
  assert (forall l n, Sorted desc l -> Sorted desc (slice_to n l)) as Hslice.
  { intros l n Hl. unfold slice_to.
    destruct (n <? 0); now apply firstn_sorted_desc. }
  assert (Sorted desc
            match category_filter with
            | Some c =>
              if truthy_str category_filter
              then filter (fun f => PyStr.contains (lower c)
                                      (lower (category f))) fl
              else fl
            | None => fl
            end) as H1.
  { destruct category_filter as [c|]; [|exact Hfl].
    destruct (truthy_str (Some c)); [|exact Hfl].
    now apply filter_sorted_desc. }
  destruct critical_only;
    [apply (filter_sorted_desc
              (fun f => existsb (String.eqb (status f))
                                ["critical"; "warning"])) in H1|];
    (destruct limit as [n|]; [|exact H1]);
    (destruct (truthy_int (Some n)); [|exact H1]);
    now apply Hslice.
Qed.

Lemma filtered_files_sorted_witness :
  Sorted desc (filtered_files (fun s => s)
                 [mkFileInfo "src/a.ts" 520 "Other";
                  mkFileInfo "src/b.ts" 450 "Other";
                  mkFileInfo "src/c.ts" 10 "Other"]
                 (Some 1) (Some "Oth") true).
Proof.
  apply filtered_files_sorted.
  repeat constructor; unfold desc; cbn; lia.
Defined.

(** X15: a positive limit [n] keeps the first [n] of the filtered files (all
    of them when there are fewer), and a negative limit [n] leaves out the
    last [-n] of them (all of them when there are fewer). *)
Theorem filtered_files_limit (lower : string -> string) (fl : list FileInfo)
    (n : Z) (category_filter : option string) (critical_only : bool) :
  let unlimited :=
    filtered_files lower fl None category_filter critical_only in
  let limited :=
    filtered_files lower fl (Some n) category_filter critical_only in
  (0 < n -> limited = firstn (Z.to_nat n) unlimited /\
            Z.of_nat (length limited)
            = Z.min n (Z.of_nat (length unlimited))) /\
  (n < 0 -> limited = firstn (length unlimited - Z.to_nat (- n)) unlimited /\
            Z.of_nat (length limited)
            = Z.max 0 (Z.of_nat (length unlimited) + n)).
Proof.
  intros unlimited limited. subst unlimited limited.
  unfold filtered_files. cbn [truthy_int]. unfold slice_to.
  set (l := if critical_only then _ else _).
  split; intros Hn.
  - rewrite (proj2 (Z.eqb_neq n 0)) by lia. cbn [negb].
    rewrite (proj2 (Z.ltb_ge n 0)) by lia.
    split; [reflexivity|]. rewrite length_firstn. lia.
  - rewrite (proj2 (Z.eqb_neq n 0)) by lia. cbn [negb].
    rewrite (proj2 (Z.ltb_lt n 0)) by lia.
    replace (Z.to_nat (Z.of_nat (length l) + n))
      with (length l - Z.to_nat (- n))%nat by lia.
    split; [reflexivity|]. rewrite length_firstn. lia.
Qed.

Lemma filtered_files_limit_witness :
  filtered_files (fun s => s)
    [mkFileInfo "src/a.ts" 520 "Other"; mkFileInfo "src/b.ts" 450 "Other";
     mkFileInfo "src/c.ts" 10 "Other"] (Some (-1)) None false
  = [mkFileInfo "src/a.ts" 520 "Other"; mkFileInfo "src/b.ts" 450 "Other"] /\
  filtered_files (fun s => s)
    [mkFileInfo "src/a.ts" 520 "Other"; mkFileInfo "src/b.ts" 450 "Other";
     mkFileInfo "src/c.ts" 10 "Other"] (Some 2) None false
  = [mkFileInfo "src/a.ts" 520 "Other"; mkFileInfo "src/b.ts" 450 "Other"].
Proof.
  split.
  - apply (proj2 (filtered_files_limit (fun s => s)
                    [mkFileInfo "src/a.ts" 520 "Other";
                     mkFileInfo "src/b.ts" 450 "Other";
                     mkFileInfo "src/c.ts" 10 "Other"] (-1) None false)).
    lia.
  - apply (proj1 (filtered_files_limit (fun s => s)
                    [mkFileInfo "src/a.ts" 520 "Other";
                     mkFileInfo "src/b.ts" 450 "Other";
                     mkFileInfo "src/c.ts" 10 "Other"] 2 None false)).
    lia.
Defined.

Lemma listing_loop_entries (filter_set : bool) (filtered : list FileInfo) :
  forall prev,
    entries_of (listing_loop filter_set prev filtered) = filtered.
Proof.
  unfold entries_of.
  induction filtered as [|f rest IH]; intros prev; cbn [listing_loop];
    [reflexivity|].
  destruct (negb filter_set && _).
  - rewrite !flat_map_app. cbn [flat_map app]. rewrite IH.
    now destruct prev.
  - cbn [flat_map app]. now rewrite IH.
Qed.

Lemma listing_loop_headings (filtered : list FileInfo)
    (tail : list listing_line) :
  (forall cur, under_own_heading cur tail) ->
  forall prev,
    under_own_heading prev (listing_loop false prev filtered ++ tail).
Proof.
  intros Htail.
  induction filtered as [|f rest IH]; intros prev; cbn [listing_loop app];
    [apply Htail|].
  cbn [negb andb].
  destruct prev as [c|].
  - destruct (String.eqb_spec (category f) c) as [E|E]; cbn [negb app].
    + cbn [under_own_heading]. split; [now rewrite E|apply IH].
    + cbn [under_own_heading]. split; [reflexivity|apply IH].
  - cbn [app under_own_heading]. split; [reflexivity|apply IH].
Qed.

Lemma listing_loop_no_heading (filtered : list FileInfo) :
  forall prev c, ~ In (Heading c) (listing_loop true prev filtered).
Proof.
  induction filtered as [|f rest IH]; intros prev c; cbn [listing_loop];
    [intros []|].
  cbn [negb andb]. intros [E|H]; [discriminate|]. exact (IH _ _ H).
Qed.

Lemma print_file_list_entries (lower : string -> string)
    (fl : list FileInfo) (limit : option Z) (category_filter : option string)
    (critical_only : bool) :
  entries_of (print_file_list lower fl limit category_filter critical_only)
  = filtered_files lower fl limit category_filter critical_only.
Proof.
  unfold print_file_list.
  destruct (filtered_files lower fl limit category_filter critical_only)
    as [|f rest]; [reflexivity|].
  unfold entries_of. rewrite !flat_map_app. cbn [flat_map app].
  fold (entries_of (listing_loop (truthy_str category_filter) None
                      (f :: rest))).
  rewrite listing_loop_entries. now rewrite app_nil_r.
Qed.

(** X16: [print_file_list] prints each file that passed the filters once, in
    order, and prints "No files matching criteria." exactly when none did.
    Without a category filter every file stands under a heading naming its
    own category; with one, no heading is printed. *)
Theorem print_file_list_layout (lower : string -> string)
    (fl : list FileInfo) (limit : option Z) (category_filter : option string)
    (critical_only : bool) :
  let filtered :=
    filtered_files lower fl limit category_filter critical_only in
  let printed := print_file_list lower fl limit category_filter critical_only in
  entries_of printed = filtered /\
  (printed = [NoMatch] <-> filtered = []) /\
  (truthy_str category_filter = false -> under_own_heading None printed) /\
  (truthy_str category_filter = true ->
   forall c, ~ In (Heading c) printed).
Proof.
  intros filtered printed. subst printed.
  split; [apply print_file_list_entries|].
  unfold print_file_list.
  fold filtered. destruct filtered as [|f rest] eqn:E.
  - repeat split; auto.
    intros _ c [H|[]]. discriminate.
  - split; [split; discriminate|]. split.
    + intros ->. cbn [app under_own_heading].
      apply listing_loop_headings. intros cur. cbn. auto.
    + intros -> c H. cbn [app In] in H.
      destruct H as [H|[H|[H|H]]]; try discriminate.
      apply in_app_or in H. destruct H as [H|[H|[]]]; [|discriminate].
      exact (listing_loop_no_heading _ _ _ H).
Qed.

Lemma print_file_list_layout_witness :
  under_own_heading None
    (print_file_list (fun s => s)
       [mkFileInfo "src/main/a.ts" 520 "Main Other";
        mkFileInfo "src/b.ts" 450 "Other";
        mkFileInfo "src/main/c.ts" 10 "Main Other"] None None false).
Proof.
  apply (proj1 (proj2 (proj2 (print_file_list_layout (fun s => s)
           [mkFileInfo "src/main/a.ts" 520 "Main Other";
            mkFileInfo "src/b.ts" 450 "Other";
            mkFileInfo "src/main/c.ts" 10 "Main Other"] None None false)))).
  reflexivity.
Defined.

(** ** What [main] prints *)

Lemma sorted_desc_split (a b : list FileInfo) :
  Sorted desc (a ++ b) ->
  forall f g, In f a -> In g b -> lines f >= lines g.
Proof.
  intros H. apply Sorted_StronglySorted in H; [|exact desc_transitive].
  induction a as [|x a IH]; intros f g Hf Hg; [destruct Hf|].
  cbn [app] in H. inversion H as [|? ? Hs Hx]; subst.
  destruct Hf as [<-|Hf]; [|now apply IH].
  rewrite Forall_forall in Hx. apply Hx. apply in_or_app. now right.
Qed.

(** X17: run without [--json], [--critical], [--category] and [--top] (or
    with [--top 0]), [main] asks for the file list with limit 30, which lists
    the first 30 files of the scan: the 30 largest, every one of them at
    least as large as every file left out. *)
Theorem main_default_listing (lower : string -> string) (sep : ascii)
    (src_dir : node) (args : Args) :
  arg_json args = false -> arg_critical args = false ->
  truthy_str (arg_category args) = false ->
  truthy_int (arg_top args) = false ->
  exists fl stats,
    main sep (Some src_dir) = Ok (fl, stats) /\
    In (FileList fl (Some 30) (arg_category args) false)
       (present args fl stats) /\
    entries_of (print_file_list lower fl (Some 30) (arg_category args) false)
    = firstn 30 fl /\
    (forall f g, In f (firstn 30 fl) -> In g (skipn 30 fl) ->
                 lines f >= lines g).
Proof.
  intros Hjson Hcrit Hcat Htop.
  exists (sort_desc (discovered sep "src" src_dir)).
  exists (build_stats (sort_desc (discovered sep "src" src_dir))).
  set (fl := sort_desc (discovered sep "src" src_dir)).
  split; [cbn [main]; now rewrite scan_files_returns|]. split; [|split].
  - unfold present. rewrite Hjson, Hcrit, Hcat.
    assert (top_or_30 (arg_top args) = 30) as ->.
    { unfold top_or_30. destruct (arg_top args) as [n|]; [|reflexivity].
      cbn [truthy_int] in Htop. apply negb_false_iff in Htop.
      now rewrite Htop. }
    repeat match goal with
           | |- context [if ?c then _ else _] => destruct c
           end;
      rewrite ?in_app_iff; cbn [In]; tauto.
  - rewrite print_file_list_entries. unfold filtered_files.
    destruct (arg_category args) as [c|]; [rewrite Hcat|]; reflexivity.
  - apply sorted_desc_split. rewrite firstn_skipn. apply sort_desc_sorted.
Qed.

Lemma main_default_listing_witness :
  exists fl stats,
    main slash (Some sample_tree) = Ok (fl, stats) /\
    In (FileList fl (Some 30) None false)
       (present (mkArgs None false None false false) fl stats).
Proof.
  destruct (main_default_listing (fun s => s) slash sample_tree
              (mkArgs None false None false false)
              eq_refl eq_refl eq_refl eq_refl)
    as (fl & stats & Hmain & Hin & _).
  exists fl, stats. split; [exact Hmain|exact Hin].
Defined.

Lemma count_status_zero (s : string) (l : list FileInfo) :
  count_status s l = 0 <-> (forall f, In f l -> status f <> s).
Proof.
  unfold count_status. split.
  - intros H f Hf E.
    assert (In f (filter (fun f => String.eqb (status f) s) l)) as Hin.
    { apply filter_In. split; [exact Hf|]. now apply String.eqb_eq. }
    destruct (filter _ l); [destruct Hin|]. cbn [length] in H. lia.
  - intros H.
    destruct (filter (fun f => String.eqb (status f) s) l) as [|f l'] eqn:E;
      [reflexivity|].
    assert (In f (filter (fun f => String.eqb (status f) s) l)) as Hin
      by (rewrite E; now left).
    apply filter_In in Hin. destruct Hin as [Hf Hs].
    apply String.eqb_eq in Hs. now destruct (H f Hf).
Qed.

Lemma status_cases (f : FileInfo) :
  status f = "critical" \/ status f = "warning" \/ status f = "good".
Proof.
  unfold status. destruct (lines f >? CRITICAL_THRESHOLD); auto.
  destruct (lines f >? WARNING_THRESHOLD); auto.
Qed.

(** X18: the closing notes of [main] say what the file list holds: the
    "healthy" note is printed exactly when every file is good, the critical
    note exactly when some file is critical and then with the number of
    critical files, and likewise the warning note. *)
Theorem main_health_notes (args : Args) (fl : list FileInfo) (stats : dict) :
  arg_json args = false ->
  (In HealthyNote (present args fl stats) <->
   forall f, In f fl -> status f = "good") /\
  (forall n, In (CriticalNote n) (present args fl stats) <->
             n = count_status "critical" fl /\
             exists f, In f fl /\ status f = "critical") /\
  (forall n, In (WarningNote n) (present args fl stats) <->
             n = count_status "warning" fl /\
             exists f, In f fl /\ status f = "warning").
Proof.
  intros Hjson.
  assert (forall s, (exists f, In f fl /\ status f = s) <->
                    count_status s fl <> 0) as Hex.
  { intros s. rewrite count_status_zero. split.
    - intros [f [Hf E]] H. exact (H f Hf E).
    - intros H.
      destruct (filter (fun f => String.eqb (status f) s) fl) as [|f l'] eqn:E.
      + exfalso. apply H. intros f Hf Es.
        assert (In f (filter (fun f => String.eqb (status f) s) fl)) as Hin.
        { apply filter_In. split; [exact Hf|]. now apply String.eqb_eq. }
        rewrite E in Hin. destruct Hin.
      + assert (In f (filter (fun f => String.eqb (status f) s) fl)) as Hin
          by (rewrite E; now left).
        apply filter_In in Hin. destruct Hin as [Hf Hs].
        apply String.eqb_eq in Hs. eauto. }
  assert ((forall f, In f fl -> status f = "good") <->
          count_status "critical" fl = 0 /\ count_status "warning" fl = 0)
    as Hgood.
  { rewrite !count_status_zero. split.
    - intros H. split; intros f Hf E; rewrite (H f Hf) in E; discriminate.
    - intros [Hc Hw] f Hf.
      destruct (status_cases f) as [E|[E|E]]; auto;
        [destruct (Hc f Hf E)|destruct (Hw f Hf E)]. }
  rewrite Hgood. setoid_rewrite Hex. unfold present. rewrite Hjson.
  destruct (Z.eqb_spec (count_status "critical" fl) 0) as [Ec|Ec];
    destruct (Z.eqb_spec (count_status "warning" fl) 0) as [Ew|Ew];
    cbn [negb andb];
    repeat match goal with
           | |- context [if ?c then _ else _] => destruct c
           end;
    repeat split; intros;
    repeat match goal with
           | H : In _ (_ ++ _) |- _ => apply in_app_or in H; destruct H as [H|H]
           | H : In _ (_ :: _) |- _ => destruct H as [H|H]
           | H : In _ [] |- _ => destruct H
           | H : _ /\ _ |- _ => destruct H
           end;
    try discriminate; try congruence; try lia;
    try (match goal with H : CriticalNote _ = CriticalNote _ |- _ =>
                           injection H as <- end; assumption);
    try (match goal with H : WarningNote _ = WarningNote _ |- _ =>
                           injection H as <- end; assumption);
    subst; rewrite ?in_app_iff; cbn [In]; tauto.
Qed.

Lemma main_health_notes_witness :
  In HealthyNote
     (present (mkArgs None false None false false)
        [mkFileInfo "src/a.ts" 12 "Other"] []).
Proof.
  apply (proj1 (main_health_notes (mkArgs None false None false false)
                  [mkFileInfo "src/a.ts" 12 "Other"] [] eq_refl)).
  intros f [<-|[]]. reflexivity.
Defined.

(** X19: with [--json] nothing but the report is printed, and no other flag
    has any effect on it. *)
Theorem main_json_only (sep : ascii) (args args' : Args) (src : option node) :
  arg_json args = true -> arg_json args' = true ->
  main_printed sep args src = main_printed sep args' src /\
  (forall out, main_printed sep args src = Ok out ->
               exists fl stats,
                 main sep src = Ok (fl, stats) /\ out = [JsonReport fl stats]).
Proof.
  intros H H'. unfold main_printed, present. rewrite H, H'.
  split; [reflexivity|].
  intros out. destruct (main sep src) as [[fl stats]|e]; cbn [bind fst snd];
    [|discriminate].
  intros [= <-]. eauto.
Qed.

Lemma main_json_only_witness :
  main_printed slash (mkArgs (Some 5) true (Some "pages") true true)
               (Some sample_tree)
  = main_printed slash (mkArgs None false None true false) (Some sample_tree).
Proof.
  apply (main_json_only slash (mkArgs (Some 5) true (Some "pages") true true)
           (mkArgs None false None true false) (Some sample_tree));
    reflexivity.
Defined.

(** X20: with [--critical] the file list is asked for without a limit:
    [--top] has no effect on what [main] prints. *)
Theorem main_critical_ignores_top (args : Args) (top' : option Z)
    (fl : list FileInfo) (stats : dict) :
  arg_critical args = true ->
  present (mkArgs top' (arg_critical args) (arg_category args)
                  (arg_json args) (arg_no_summary args)) fl stats
  = present args fl stats /\
  (arg_json args = false ->
   In (FileList fl None (arg_category args) true) (present args fl stats)).
Proof.
  intros H. unfold present. cbn [arg_top arg_critical arg_category arg_json
                                 arg_no_summary]. rewrite H.
  split; [reflexivity|]. intros ->.
  repeat match goal with
         | |- context [if ?c then _ else _] => destruct c
         end;
    rewrite ?in_app_iff; cbn [In]; tauto.
Qed.

Lemma main_critical_ignores_top_witness :
  present (mkArgs (Some 3) true None false false)
          [mkFileInfo "src/a.ts" 520 "Other"] []
  = present (mkArgs None true None false false)
            [mkFileInfo "src/a.ts" 520 "Other"] [].
Proof.
  apply (proj1 (main_critical_ignores_top
                  (mkArgs None true None false false) (Some 3)
                  [mkFileInfo "src/a.ts" 520 "Other"] [] eq_refl)).
Defined.

(** ** No file is reported twice *)

Lemma locations_dir (es : list (string * node)) :
  locations (Dir es)
  = map (fun e => [fst e]) (filter (fun e => eligible (fst e)) (nondirs es))
    ++ flat_map (fun e =>
                   match snd e with
                   | Dir _ =>
                     if keep_dir (fst e)
                     then map (cons (fst e)) (locations (snd e)) else []
                   | File _ => []
                   end) es.
Proof.
  cbn [locations]. f_equal.
  induction es as [|[d [st|es']] es IH]; cbn [flat_map fst snd]; auto.
  destruct (keep_dir d); cbn [app]; now rewrite IH.
Qed.

Lemma discovered_dir (sep : ascii) (top : string) (es : list (string * node)) :
  discovered sep top (Dir es)
  = found_in sep top (nondirs es)
    ++ flat_map (fun e =>
                   match snd e with
                   | Dir _ =>
                     if keep_dir (fst e)
                     then discovered sep (path_join sep top (fst e)) (snd e)
                     else []
                   | File _ => []
                   end) es.
Proof.
  unfold discovered. rewrite os_walk_dir. cbn [flat_map fst snd]. f_equal.
  induction es as [|[d [st|es']] es IH]; cbn [flat_map fst snd]; auto.
  destruct (keep_dir d); [|exact IH].
  now rewrite flat_map_app, IH.
Qed.

Lemma append_empty (s : string) : (s ++ EmptyString)%string = s.
Proof. induction s as [|c s IH]; cbn; [reflexivity|now rewrite IH]. Qed.

Lemma append_assoc (s t u : string) :
  ((s ++ t) ++ u)%string = (s ++ (t ++ u))%string.
Proof. induction s as [|c s IH]; cbn; [reflexivity|now rewrite IH]. Qed.

(** The recorded paths are the locations, written out below [top]. *)
Lemma discovered_paths (sep : ascii) (n : node) :
  forall top,
    map path (discovered sep top n)
    = map (fun comps => (top ++ joined sep comps)%string) (locations n).
Proof.
  induction n as [st|es IH] using node_induction; intros top; [reflexivity|].
  rewrite discovered_dir, locations_dir, !map_app. f_equal.
  - unfold found_in. generalize (nondirs es) as fs.
    induction fs as [|[filename st] fs IHfs]; cbn [flat_map filter fst snd map];
      [reflexivity|].
    destruct (eligible filename); cbn [app map]; [|exact IHfs].
    rewrite IHfs. f_equal. cbn [record_of path joined fold_right].
    unfold path_join. now rewrite append_empty.
  - induction es as [|[d child] es IHes]; cbn [flat_map fst snd];
      [reflexivity|].
    rewrite !map_app, IHes by (intros d' c' H; apply (IH d' c'); now right).
    f_equal. destruct child as [st|es']; [reflexivity|].
    destruct (keep_dir d); [|reflexivity].
    rewrite (IH d (Dir es') (or_introl eq_refl)), map_map.
    apply map_ext. intros comps. cbn [joined fold_right].
    unfold path_join. now rewrite append_assoc.
Qed.

Lemma unique_names_dir (es : list (string * node)) :
  unique_names (Dir es) <->
  NoDup (map fst es) /\
  (forall d child, In (d, child) es -> unique_names child).
Proof.
  cbn [unique_names].
  assert ((fix all (l : list (string * node)) : Prop :=
             match l with
             | [] => True
             | (_, child) :: rest => unique_names child /\ all rest
             end) es
          <-> (forall d child, In (d, child) es -> unique_names child)) as H.
  { induction es as [|[d c] es IH]; cbn [In].
    - split; [intros _ ? ? []|auto].
    - rewrite IH. split.
      + intros [Hc Hes] d' c' [[= <- <-]|Hin]; eauto.
      + intros H. split; [apply (H d c); now left|].
        intros d' c' Hin. apply (H d' c'). now right. }
  now rewrite H.
Qed.

Lemma locations_nonempty (n : node) (comps : list string) :
  In comps (locations n) -> comps <> [].
Proof.
  destruct n as [st|es]; [intros []|]. rewrite locations_dir.
  intros H. apply in_app_or in H. destruct H as [H|H].
  - apply in_map_iff in H. destruct H as [e [<- _]]. discriminate.
  - apply in_flat_map in H. destruct H as [[d child] [_ H]].
    cbn [fst snd] in H. destruct child; [destruct H|].
    destruct (keep_dir d); [|destruct H].
    apply in_map_iff in H. destruct H as [c [<- _]]. discriminate.
Qed.

Lemma locations_sep_free (sep : ascii) (n : node) :
  names_ok sep n = true ->
  forall comps, In comps (locations n) ->
    Forall (fun c => PyStr.has_char sep c = false) comps.
Proof.
  induction n as [st|es IH] using node_induction; intros Hok comps Hin;
    [destruct Hin|].
  rewrite names_ok_dir, forallb_forall in Hok.
  rewrite locations_dir in Hin. apply in_app_or in Hin.
  destruct Hin as [Hin|Hin].
  - apply in_map_iff in Hin. destruct Hin as [[filename st] [<- Hin]].
    apply filter_In in Hin. destruct Hin as [Hin _].
    apply in_nondirs in Hin. specialize (Hok _ Hin). cbn [fst snd] in *.
    apply andb_true_iff in Hok. destruct Hok as [Hd _].
    apply negb_true_iff in Hd. now repeat constructor.
  - apply in_flat_map in Hin. destruct Hin as [[d child] [Hes Hin]].
    cbn [fst snd] in Hin. destruct child as [st|es']; [destruct Hin|].
    destruct (keep_dir d); [|destruct Hin].
    apply in_map_iff in Hin. destruct Hin as [c [<- Hc]].
    specialize (Hok _ Hes). cbn [fst snd] in Hok.
    apply andb_true_iff in Hok. destruct Hok as [Hd Hchild].
    apply negb_true_iff in Hd. constructor; [exact Hd|].
    exact (IH d _ Hes Hchild c Hc).
Qed.

Lemma nondirs_names (es : list (string * node)) (x : string) :
  In x (map fst (nondirs es)) -> In x (map fst es).
Proof.
  intros H. apply in_map_iff in H. destruct H as [[y st] [<- H]].
  apply in_nondirs in H. cbn [fst]. change y with (fst (y, File st)).
  now apply in_map.
Qed.

Lemma nondirs_nodup (es : list (string * node)) :
  NoDup (map fst es) -> NoDup (map fst (nondirs es)).
Proof.
  induction es as [|[d child] es IH]; intros H; [constructor|].
  inversion H as [|? ? Hd Hrest]; subst.
  assert (nondirs ((d, child) :: es)
          = match child with File st => [(d, st)] | Dir _ => [] end
            ++ nondirs es) as -> by reflexivity.
  destruct child as [st|es']; cbn [app map fst]; [|now apply IH].
  constructor; [|now apply IH].
  intros Hin. apply Hd. now apply nondirs_names.
Qed.

Lemma singletons_nodup (p : string * file_state -> bool)
    (fs : list (string * file_state)) :
  NoDup (map fst fs) ->
  NoDup (map (fun e : string * file_state => [fst e]) (filter p fs)).
Proof.
  induction fs as [|e fs IH]; intros H; cbn [filter map]; [constructor|].
  inversion H as [|? ? Hx Hrest]; subst.
  destruct (p e); cbn [map]; [|now apply IH].
  constructor; [|now apply IH].
  intros Hin. apply Hx. apply in_map_iff in Hin.
  destruct Hin as [e' [[= E] He']]. rewrite <- E.
  apply filter_In in He'. apply in_map. tauto.
Qed.

Lemma below_head (es : list (string * node)) (comps : list string) :
  In comps (flat_map (fun e =>
                        match snd e with
                        | Dir _ =>
                          if keep_dir (fst e)
                          then map (cons (fst e)) (locations (snd e)) else []
                        | File _ => []
                        end) es) ->
  exists d rest, comps = d :: rest /\ rest <> [] /\ In d (map fst es).
Proof.
  intros H. apply in_flat_map in H. destruct H as [[d child] [Hes H]].
  cbn [fst snd] in H. destruct child as [st|es']; [destruct H|].
  destruct (keep_dir d); [|destruct H].
  apply in_map_iff in H. destruct H as [rest [<- Hrest]].
  exists d, rest. repeat split.
  - now apply locations_nonempty in Hrest.
  - change d with (fst (d, Dir es')). now apply in_map.
Qed.

Lemma below_nodup (es : list (string * node)) :
  NoDup (map fst es) ->
  (forall d child, In (d, child) es -> NoDup (locations child)) ->
  NoDup (flat_map (fun e =>
                     match snd e with
                     | Dir _ =>
                       if keep_dir (fst e)
                       then map (cons (fst e)) (locations (snd e)) else []
                     | File _ => []
                     end) es).
Proof.
  induction es as [|[d child] es IH]; intros Hnames Hsub; cbn [flat_map];
    [constructor|].
  inversion Hnames as [|? ? Hd Hrest]; subst.
  assert (NoDup (flat_map (fun e =>
                     match snd e with
                     | Dir _ =>
                       if keep_dir (fst e)
                       then map (cons (fst e)) (locations (snd e)) else []
                     | File _ => []
                     end) es)) as Htail.
  { apply IH; [exact Hrest|]. intros d' c' H. apply (Hsub d' c'). now right. }
  cbn [fst snd]. destruct child as [st|es']; [exact Htail|].
  destruct (keep_dir d); [|exact Htail].
  apply NoDup_app; [|exact Htail|].
  - apply NoDup_map_NoDup_ForallPairs.
    + intros x y _ _ E. now injection E.
    + apply (Hsub d (Dir es')). now left.
  - intros comps H1 H2. apply in_map_iff in H1.
    destruct H1 as [rest [<- _]].
    apply below_head in H2. destruct H2 as (d' & rest' & [= <- _] & _ & Hin).
    contradiction.
Qed.

Lemma locations_nodup (n : node) : unique_names n -> NoDup (locations n).
Proof.
  induction n as [st|es IH] using node_induction; intros Hu; [constructor|].
  apply unique_names_dir in Hu. destruct Hu as [Hnames Hchildren].
  rewrite locations_dir. apply NoDup_app.
  - apply singletons_nodup, nondirs_nodup, Hnames.
  - apply below_nodup; [exact Hnames|]. intros d child Hin.
    apply (IH d child Hin). exact (Hchildren d child Hin).
  - intros comps H1 H2. apply in_map_iff in H1. destruct H1 as [e [<- _]].
    apply below_head in H2. destruct H2 as (d & rest & [= _ <-] & Hne & _).
    now apply Hne.
Qed.

(** X21: in a tree where no directory lists a name twice and no name holds
    the separator, the scan reports every file once: no two records have the
    same path. *)
Theorem scan_files_no_duplicates (sep : ascii) (src_name : string)
    (src_dir : node) :
  names_ok sep src_dir = true -> unique_names src_dir ->
  exists out,
    scan_files sep src_name src_dir = Ok out /\ NoDup (map path out).
Proof.
  intros Hok Hu. exists (sort_desc (discovered sep src_name src_dir)).
  split; [apply scan_files_returns|].
  apply (Permutation_NoDup
           (l := map path (discovered sep src_name src_dir))).
  { apply Permutation_map, Permutation_sym, sort_desc_perm. }
  rewrite discovered_paths. apply NoDup_map_NoDup_ForallPairs.
  - intros x y Hx Hy E. apply append_cancel in E.
    apply (joined_inj sep);
      [exact (locations_sep_free sep src_dir Hok x Hx)
      |exact (locations_sep_free sep src_dir Hok y Hy)
      |exact E].
  - now apply locations_nodup.
Qed.

Lemma scan_files_no_duplicates_witness :
  exists out,
    scan_files slash "src" sample_tree = Ok out /\ NoDup (map path out).
Proof.
  apply scan_files_no_duplicates; [reflexivity|].
  cbn. repeat split; repeat constructor; cbn; intuition discriminate.
Defined.
